(** * Cursors Everywhere: the content script, embedded and verified

    A shallow embedding of [src/content.js]: the capture buffer and its
    100 ms flush, the replay of received presence updates through
    [setTimeout], the cursor map, the presence snapshot and the toggle
    message.

    Conventions of the embedding:
    - JavaScript numbers (page coordinates, [performance.now()], timer
      delays) are integers [Z], in pixels and milliseconds.
    - The module-level variables of the script are the fields of [State];
      every handler is a function on [State].  A handler that can raise
      returns an [outcome].
    - The page ([document.elementFromPoint], [document.querySelectorAll])
      and the transport ([channel.presence]) are the environment: the page
      is a [Document.t] the handlers read, the transport is the log [sent]
      of the calls made on it.
    - The cursor map [cursors] is a JavaScript object used as a
      dictionary from participant id to the cursor's [div]; it is a
      [gmap string Cursor.t].  A participant id that names a property of
      [Object.prototype] ([inheritedKey]) reads as present in the script
      without being an entry: the map models the other ids, and a theorem
      that promises a cursor to a participant assumes its id is not one of
      them. *)

From Stdlib Require Import ZArith Ascii String.
From stdpp Require Import gmap strings list fin_maps.

Local Open Scope Z_scope.

(** ** JavaScript strings *)

Module JsString.

(** [s.replaceAll(pat, by)] for a one-character pattern. *)
Fixpoint replaceAll (pat : ascii) (by_ : string) (s : string) : string :=
  match s with
  | EmptyString => EmptyString
  | String c rest =>
      if Ascii.eqb c pat then by_ +:+ replaceAll pat by_ rest
      else String c (replaceAll pat by_ rest)
  end.

(** Truthiness of a string: every string but the empty one. *)
Definition truthy (s : string) : bool :=
  match s with EmptyString => false | String _ _ => true end.

End JsString.

(** ** The page *)

Module DOMRect.
Record t := mk { left : Z; top : Z }.
End DOMRect.

Module ClassName.
(** The value of [element.className]: the class attribute as a string
    for an HTML element, an [SVGAnimatedString] object for an SVG
    element. *)
Inductive t :=
| Str (s : string)
| SVGAnimatedString (baseVal : string).

(** Truthiness: a non-empty string; any object. *)
Definition truthy (c : t) : bool :=
  match c with
  | Str s => JsString.truthy s
  | SVGAnimatedString _ => true
  end.

(** The value as a template literal prints it. *)
Definition toString (c : t) : string :=
  match c with
  | Str s => s
  | SVGAnimatedString _ => "[object SVGAnimatedString]"
  end.
End ClassName.

Module Element.
(** What the script reads of an element: [className], [id], and
    [getBoundingClientRect], which line 105 tests with [typeof] before
    the call ([None]: not a function). *)
Record t := mk {
  className : ClassName.t;
  id : string;
  getBoundingClientRect : option DOMRect.t
}.
End Element.

Module Document.
(** [querySelectorAll] returns a node list, or raises a [SyntaxError]
    when the string is not a valid selector. *)
Inductive QueryResult :=
| NodeList (elements : list Element.t)
| SyntaxError.

(** [elementFromPoint] is [null] ([None]) when the point is outside the
    viewport. *)
Record t := mk {
  elementFromPoint : Z -> Z -> option Element.t;
  querySelectorAll : string -> QueryResult
}.
End Document.

Module MouseEvent.
Record t := mk { clientX : Z; clientY : Z; pageX : Z; pageY : Z }.
End MouseEvent.

(** ** The payload *)

Module Position.
(** One entry of [positions] (line 47).  [element] is the selector built
    from the hovered element, the empty string when it has neither class
    nor id. *)
Record t := mk {
  x : Z;
  y : Z;
  xElement : Z;
  yElement : Z;
  time : Z;
  element : string
}.
End Position.

Module PresenceData.
(** [{positions: ..., color: ...}] for an update, [{color: ...}] for an
    enter: [positions] is then [undefined] ([None]). *)
Record t := mk {
  positions : option (list Position.t);
  color : string
}.
End PresenceData.

Module PresenceMessage.
(** A presence message of the transport.  [timestamp] is the time the
    transport stamped on it; the script never reads it. *)
Record t := mk {
  clientId : string;
  timestamp : Z;
  data : PresenceData.t
}.
End PresenceMessage.

(** ** The state of the script *)

(** A CSS length, the string [n + 'px']. *)
Inductive css := px (n : Z).

Module Cursor.
(** The [div] of a remote participant: its identity as a DOM node and
    the style the script writes.  The constant styles (width, height,
    position, border radius, z-index) and the hover listeners are left
    out. *)
Record t := mk {
  node : nat;
  backgroundColor : string;
  title : string;
  left : option css;
  top : option css
}.

Definition moveTo (l t_ : Z) (c : t) : t :=
  mk (node c) (backgroundColor c) (title c) (Some (px l)) (Some (px t_)).
End Cursor.

(** The two callbacks the script passes to [setTimeout]: the one of the
    update handler (lines 94-115) and the one of the snapshot (lines
    175-179), each closed over the participant and the position. *)
Inductive Callback :=
| ReplayUpdate (clientId : string) (position : Position.t)
| ReplaySnapshot (clientId : string) (position : Position.t).

Module Timer.
Record t := mk { due : Z; callback : Callback }.
End Timer.

(** Calls made on [channel.presence]. *)
Inductive ChannelCall :=
| PresenceUpdate (data : PresenceData.t)
| PresenceEnter (data : PresenceData.t)
| PresenceLeave
| PresenceGet.

Inductive Error := TypeError | DOMSyntaxError.

Record State := mkState {
  (* the variables of content.js *)
  cursorCommunicationEnabled : bool;
  positions : list Position.t;
  baseTime : option Z;
  cursors : gmap string Cursor.t;
  (* the host *)
  body : list nat;            (* the cursor nodes that are children of document.body *)
  nextNode : nat;             (* identity of the next created node *)
  timers : list Timer.t;      (* pending setTimeout callbacks, in registration order *)
  sent : list ChannelCall;    (* calls on channel.presence, oldest first *)
  clock : Z                   (* performance.now() *)
}.

Inductive outcome :=
| Done (st : State)
| Threw (e : Error) (st : State).

Definition settle (o : outcome) : State :=
  match o with Done st => st | Threw _ st => st end.

Definition initial (t0 : Z) : State :=
  mkState false [] None ∅ [] O [] [] t0.

Definition set_enabled (b : bool) (st : State) : State :=
  mkState b (positions st) (baseTime st) (cursors st) (body st)
          (nextNode st) (timers st) (sent st) (clock st).

Definition set_buffer (ps : list Position.t) (bt : option Z) (st : State) : State :=
  mkState (cursorCommunicationEnabled st) ps bt (cursors st) (body st)
          (nextNode st) (timers st) (sent st) (clock st).

Definition set_cursors (cs : gmap string Cursor.t) (st : State) : State :=
  mkState (cursorCommunicationEnabled st) (positions st) (baseTime st) cs (body st)
          (nextNode st) (timers st) (sent st) (clock st).

Definition set_body (b : list nat) (st : State) : State :=
  mkState (cursorCommunicationEnabled st) (positions st) (baseTime st) (cursors st) b
          (nextNode st) (timers st) (sent st) (clock st).

Definition set_nextNode (n : nat) (st : State) : State :=
  mkState (cursorCommunicationEnabled st) (positions st) (baseTime st) (cursors st) (body st)
          n (timers st) (sent st) (clock st).

Definition set_timers (ts : list Timer.t) (st : State) : State :=
  mkState (cursorCommunicationEnabled st) (positions st) (baseTime st) (cursors st) (body st)
          (nextNode st) ts (sent st) (clock st).

Definition call (c : ChannelCall) (st : State) : State :=
  mkState (cursorCommunicationEnabled st) (positions st) (baseTime st) (cursors st) (body st)
          (nextNode st) (timers st) (sent st ++ [c]) (clock st).

Definition set_clock (t : Z) (st : State) : State :=
  mkState (cursorCommunicationEnabled st) (positions st) (baseTime st) (cursors st) (body st)
          (nextNode st) (timers st) (sent st) t.

(** ** Host operations *)

(** The host reads a timer delay as a 32-bit signed integer. *)
Definition toInt32 (z : Z) : Z := (z + 2147483648) mod 4294967296 - 2147483648.

(** [setTimeout(cb, delay)]: the callback is due [delay] ms from now, the
    delay wrapped to 32 bits and a negative one counting as 0. *)
Definition setTimeout (cb : Callback) (delay : Z) (st : State) : State :=
  set_timers (timers st ++ [Timer.mk (clock st + Z.max 0 (toInt32 delay)) cb]) st.

(** [document.body.removeChild(node)]. *)
Definition removeChild (n : nat) (children : list nat) : list nat :=
  filter (λ m, m ≠ n) children.

(** ** The handlers of content.js *)

Section Content.

(** The page the script runs in, and the colour drawn at load time
    (line 5). *)
Variable doc : Document.t.
Variable color : string.

(** Lines 28-31: the selector stored in a position. *)
Definition elementClassAndID (element : Element.t) : string :=
  let s := if ClassName.truthy (Element.className element)
           then "." +:+ ClassName.toString (Element.className element)
           else EmptyString in
  let s := JsString.replaceAll ":" "\:" (JsString.replaceAll " " "." s) in
  if JsString.truthy (Element.id element)
  then s +:+ " #" +:+ Element.id element else s.

(** Lines 43-45: [if (!baseTime) baseTime = now]; [undefined], [null]
    and [0] are falsy. *)
Definition baseTime_or (now : Z) (bt : option Z) : Z :=
  match bt with
  | Some b => if b =? 0 then now else b
  | None => now
  end.

(** Lines 24-49: the mousemove listener. *)
Definition onMouseMove (e : MouseEvent.t) (st : State) : outcome :=
  if cursorCommunicationEnabled st then
    match Document.elementFromPoint doc (MouseEvent.clientX e) (MouseEvent.clientY e) with
    | None => Threw TypeError st            (* element.className of null *)
    | Some element =>
        let sel := elementClassAndID element in
        match Element.getBoundingClientRect element with
        | None => Threw TypeError st
        | Some rect =>
            let x := MouseEvent.pageX e in
            let y := MouseEvent.pageY e in
            let xElement := MouseEvent.pageX e - DOMRect.left rect in
            let yElement := MouseEvent.pageY e - DOMRect.top rect in
            let now := clock st in
            let base := baseTime_or now (baseTime st) in
            Done (set_buffer
                    (positions st ++ [Position.mk x y xElement yElement (now - base) sel])
                    (Some base) st)
        end
    end
  else Done st.

(** Lines 53-59: the callback of [setInterval(..., 100)]. *)
Definition onInterval (st : State) : State :=
  if cursorCommunicationEnabled st && negb (Nat.eqb (length (positions st)) 0) then
    set_buffer [] None
      (call (PresenceUpdate (PresenceData.mk (Some (positions st)) color)) st)
  else st.

(** Lines 71-80 and 151-160: create the cursor of a participant. *)
Definition createCursor (clientId : string) (data : PresenceData.t) (st : State) : State :=
  let cursor := Cursor.mk (nextNode st) (PresenceData.color data) clientId None None in
  set_nextNode (S (nextNode st))
    (set_cursors (<[clientId := cursor]> (cursors st))
       (set_body (body st ++ [nextNode st]) st)).

Definition ensureCursor (m : PresenceMessage.t) (st : State) : State :=
  match cursors st !! PresenceMessage.clientId m with
  | None => createCursor (PresenceMessage.clientId m) (PresenceMessage.data m) st
  | Some _ => st
  end.

(** [data.positions.forEach(position => setTimeout(cb, position.time))]. *)
Definition scheduleReplay (cb : Position.t -> Callback) (ps : list Position.t)
    (st : State) : State :=
  foldl (λ s position, setTimeout (cb position) (Position.time position) s) st ps.

(** Lines 65-118: the subscriber of presence updates. *)
Definition onPresenceUpdate (presenceMsg : PresenceMessage.t) (st : State) : State :=
  if cursorCommunicationEnabled st then
    let st1 := ensureCursor presenceMsg st in
    match PresenceData.positions (PresenceMessage.data presenceMsg) with
    | None => st1
    | Some ps => scheduleReplay (ReplayUpdate (PresenceMessage.clientId presenceMsg)) ps st1
    end
  else st.

Definition moveCursor (clientId : string) (l t_ : Z) (st : State) : State :=
  set_cursors (alter (Cursor.moveTo l t_) clientId (cursors st)) st.

(** Lines 97-100: [elements] is set when the selector is non-empty,
    [element] when [elements] has exactly one entry. *)
Definition theElement (elements : list Element.t) : option Element.t :=
  match elements with
  | [element] => Some element
  | _ => None
  end.

(** Lines 94-115: the timer callback of the update handler. *)
Definition replayUpdate (clientId : string) (position : Position.t) (st : State) : outcome :=
  match cursors st !! clientId with
  | None => Done st
  | Some _ =>
      let elements :=
        if JsString.truthy (Position.element position)
        then Some (Document.querySelectorAll doc (Position.element position))
        else None in
      match elements with
      | Some Document.SyntaxError => Threw DOMSyntaxError st
      | Some (Document.NodeList els) =>
          match theElement els with
          | Some element =>
              match Element.getBoundingClientRect element with
              | Some rect =>
                  Done (moveCursor clientId
                          (DOMRect.left rect + Position.xElement position)
                          (DOMRect.top rect + Position.yElement position) st)
              | None => Done st
              end
          | None =>
              Done (moveCursor clientId (Position.x position) (Position.y position) st)
          end
      | None =>
          Done (moveCursor clientId (Position.x position) (Position.y position) st)
      end
  end.

(** Lines 175-179: the timer callback of the snapshot. *)
Definition replaySnapshot (clientId : string) (position : Position.t) (st : State) : State :=
  match cursors st !! clientId with
  | None => st
  | Some _ => moveCursor clientId (Position.x position) (Position.y position) st
  end.

(** Lines 122-128: the subscriber of presence leaves. *)
Definition onPresenceLeave (presenceMsg : PresenceMessage.t) (st : State) : State :=
  match cursors st !! PresenceMessage.clientId presenceMsg with
  | Some cursor =>
      set_cursors (delete (PresenceMessage.clientId presenceMsg) (cursors st))
        (set_body (removeChild (Cursor.node cursor) (body st)) st)
  | None => st
  end.

(** Lines 131-136: [for (let clientId in cursors)] removes each cursor
    from the body and deletes its key.  [clearLoop] is the loop over the
    entries found when it starts. *)
Definition clearLoop (l : list (string * Cursor.t)) (st : State) : State :=
  foldl (λ s kc,
           set_cursors (delete kc.1 (cursors s))
             (set_body (removeChild (Cursor.node kc.2) (body s)) s))
        st l.

Definition clearCursors (st : State) : State :=
  clearLoop (map_to_list (cursors st)) st.

(** Lines 146-181: the loop of the snapshot callback.  The [return] of
    line 171 leaves the callback, and the loop with it. *)
Fixpoint presenceSetLoop (presenceSet : list PresenceMessage.t) (st : State) : State :=
  match presenceSet with
  | [] => st
  | presenceMsg :: rest =>
      let st1 := ensureCursor presenceMsg st in
      match PresenceData.positions (PresenceMessage.data presenceMsg) with
      | None => st1
      | Some ps =>
          presenceSetLoop rest
            (scheduleReplay (ReplaySnapshot (PresenceMessage.clientId presenceMsg)) ps st1)
      end
  end.

(** Lines 140-182: the callback of [channel.presence.get]. *)
Definition onPresenceSet (err : bool) (presenceSet : list PresenceMessage.t)
    (st : State) : State :=
  if err then st else presenceSetLoop presenceSet st.

(** Lines 196-208: the listener of runtime messages.  [fetchPresenceSet]
    only issues [channel.presence.get]; its callback runs later, as
    [onPresenceSet]. *)
Definition onMessage (method : string) (st : State) : State :=
  if String.eqb method "setCursorCommunication" then
    let st1 := set_enabled (negb (cursorCommunicationEnabled st)) st in
    if cursorCommunicationEnabled st1 then
      call (PresenceEnter (PresenceData.mk None color)) (call PresenceGet st1)
    else
      call PresenceLeave (clearCursors st1)
  else st.

(** ** The event loop *)

Definition fire (cb : Callback) (st : State) : outcome :=
  match cb with
  | ReplayUpdate clientId position => replayUpdate clientId position st
  | ReplaySnapshot clientId position => Done (replaySnapshot clientId position st)
  end.

(** The next timer to run by time [t]: the earliest due one, the first
    registered among equals. *)
Fixpoint earliest (best : Timer.t) (ts : list Timer.t) : Timer.t :=
  match ts with
  | [] => best
  | tm :: rest =>
      earliest (if Timer.due tm <? Timer.due best then tm else best) rest
  end.

Fixpoint removeFirst (tm : Timer.t) (ts : list Timer.t) : list Timer.t :=
  match ts with
  | [] => []
  | tm' :: rest =>
      if Z.eqb (Timer.due tm') (Timer.due tm) then rest else tm' :: removeFirst tm rest
  end.

Definition nextDue (t : Z) (ts : list Timer.t) : option (Timer.t * list Timer.t) :=
  match ts with
  | [] => None
  | tm :: rest =>
      let best := earliest tm rest in
      if Timer.due best <=? t then Some (best, removeFirst best ts) else None
  end.

(** Run the timers due by [t], each at its due time.  No callback of the
    script registers a timer, so the number of pending timers bounds
    the number of runs. *)
Fixpoint runTimers (fuel : nat) (t : Z) (st : State) : State :=
  match fuel with
  | O => st
  | S fuel' =>
      match nextDue t (timers st) with
      | None => st
      | Some (tm, rest) =>
          let st1 := set_clock (Z.max (clock st) (Timer.due tm)) (set_timers rest st) in
          runTimers fuel' t (settle (fire (Timer.callback tm) st1))
      end
  end.

(** Time passes until [t]. *)
Definition advanceTo (t : Z) (st : State) : State :=
  let st1 := runTimers (length (timers st)) t st in
  set_clock (Z.max (clock st1) t) st1.

Inductive Event :=
| MouseMove (e : MouseEvent.t)
| Interval
| Update (presenceMsg : PresenceMessage.t)
| Leave (presenceMsg : PresenceMessage.t)
| PresenceSet (err : bool) (presenceSet : list PresenceMessage.t)
| Message (method : string)
| AdvanceTo (t : Z).

Definition handle (ev : Event) (st : State) : outcome :=
  match ev with
  | MouseMove e => onMouseMove e st
  | Interval => Done (onInterval st)
  | Update m => Done (onPresenceUpdate m st)
  | Leave m => Done (onPresenceLeave m st)
  | PresenceSet err ps => Done (onPresenceSet err ps st)
  | Message method => Done (onMessage method st)
  | AdvanceTo t => Done (advanceTo t st)
  end.

(** An uncaught exception ends the handler, not the script. *)
Definition step (st : State) (ev : Event) : State := settle (handle ev st).

Definition run (evs : list Event) (st : State) : State := foldl step st evs.

End Content.

(** ** Observations *)

(** Where a participant's cursor is drawn: [None] when the participant has
    no cursor, [Some (None, None)] when the cursor has no position yet. *)
Definition placed (st : State) (clientId : string) : option (option css * option css) :=
  (λ c, (Cursor.left c, Cursor.top c)) <$> cursors st !! clientId.

(** The batches handed to [channel.presence.update], oldest first. *)
Definition batchOf (c : ChannelCall) : list (list Position.t) :=
  match c with
  | PresenceUpdate data =>
      match PresenceData.positions data with
      | Some ps => [ps]
      | None => []
      end
  | _ => []
  end.

Definition emitted (st : State) : list (list Position.t) :=
  concat (map batchOf (sent st)).

(** Every sample handed to the transport so far, followed by the samples
    still in the buffer. *)
Definition flow (st : State) : list Position.t :=
  concat (emitted st) ++ positions st.

(** What the capture side of the script owns. *)
Definition senderView (st : State) : bool * list Position.t * option Z * list ChannelCall :=
  (cursorCommunicationEnabled st, positions st, baseTime st, sent st).

(** The pointer events the listener turns into samples: those delivered
    while the session is enabled, over an element.  The flag is followed
    through the toggle messages of the trace. *)
Definition hits (doc : Document.t) (e : MouseEvent.t) : bool :=
  match Document.elementFromPoint doc (MouseEvent.clientX e) (MouseEvent.clientY e) with
  | Some element => bool_decide (is_Some (Element.getBoundingClientRect element))
  | None => false
  end.

Fixpoint capturedEvents (doc : Document.t) (enabled : bool) (evs : list Event)
    : list MouseEvent.t :=
  match evs with
  | [] => []
  | MouseMove e :: rest =>
      (if enabled && hits doc e then [e] else []) ++ capturedEvents doc enabled rest
  | Message method :: rest =>
      capturedEvents doc
        (if String.eqb method "setCursorCommunication" then negb enabled else enabled) rest
  | _ :: rest => capturedEvents doc enabled rest
  end.

Definition pagePoint (p : Position.t) : Z * Z := (Position.x p, Position.y p).
Definition eventPoint (e : MouseEvent.t) : Z * Z := (MouseEvent.pageX e, MouseEvent.pageY e).

(** ** Concrete pages and messages used in the examples *)

Module Examples.

Definition toggle : Event := Message "setCursorCommunication".

(** A page with nothing under any point and no match for any selector. *)
Definition blankPage : Document.t :=
  Document.mk (λ _ _, None) (λ _, Document.NodeList []).

(** A page with one [div class="box"] under every point. *)
Definition box : Element.t :=
  Element.mk (ClassName.Str "box") EmptyString (Some (DOMRect.mk 5 7)).
Definition boxPage : Document.t :=
  Document.mk (λ _ _, Some box)
              (λ sel, if String.eqb sel ".box" then Document.NodeList [box]
                      else Document.NodeList []).

(** A page with two [div class="item"]. *)
Definition item1 : Element.t :=
  Element.mk (ClassName.Str "item") EmptyString (Some (DOMRect.mk 100 200)).
Definition item2 : Element.t :=
  Element.mk (ClassName.Str "item") EmptyString (Some (DOMRect.mk 100 300)).
Definition listPage : Document.t :=
  Document.mk (λ _ _, Some item1)
              (λ sel, if String.eqb sel ".item" then Document.NodeList [item1; item2]
                      else Document.NodeList []).

(** On the sender's page the hovered element is [div class="foo "], the
    class attribute ending in a space.  On the receiver's page the
    selector built from it, [.foo.], is not a valid selector. *)
Definition trailing : Element.t :=
  Element.mk (ClassName.Str "foo ") EmptyString (Some (DOMRect.mk 0 0)).
Definition senderPage : Document.t :=
  Document.mk (λ _ _, Some trailing) (λ _, Document.NodeList []).
Definition receiverPage : Document.t :=
  Document.mk (λ _ _, None)
              (λ sel, if String.eqb sel ".foo." then Document.SyntaxError
                      else Document.NodeList []).

Definition move (px_ py_ : Z) : MouseEvent.t := MouseEvent.mk px_ py_ px_ py_.

(** The batch of the end-to-end scenario. *)
Definition s0 : Position.t := Position.mk 10 10 0 0 0 EmptyString.
Definition s50 : Position.t := Position.mk 20 15 0 0 50 EmptyString.
Definition batchA : PresenceMessage.t :=
  PresenceMessage.mk "A" 1000 (PresenceData.mk (Some [s0; s50]) "#00FF00").

(** Two participants that entered and never sent a batch. *)
Definition idleA : PresenceMessage.t :=
  PresenceMessage.mk "A" 10 (PresenceData.mk None "#AA0000").
Definition idleB : PresenceMessage.t :=
  PresenceMessage.mk "B" 20 (PresenceData.mk None "#0000BB").

End Examples.

(** ** Invariants of the script *)

(** The property names of [Object.prototype]: for these ids
    [cursors[clientId]] is truthy in the script although the map has no
    entry for them. *)
Definition inheritedKey (clientId : string) : bool :=
  bool_decide (clientId ∈ ["constructor"; "__proto__"; "hasOwnProperty";
                           "isPrototypeOf"; "propertyIsEnumerable";
                           "toLocaleString"; "toString"; "valueOf";
                           "__defineGetter__"; "__defineSetter__";
                           "__lookupGetter__"; "__lookupSetter__"]).

(** The DOM node of a participant's cursor. *)
Definition nodeOf (st : State) (clientId : string) : option nat :=
  Cursor.node <$> cursors st !! clientId.

(** The cursor map and the body agree: the children of the body are the
    nodes of the tracked cursors, each once, one per participant, all
    created before [nextNode]. *)
Definition cursorInv (st : State) : Prop :=
  NoDup (body st)
  ∧ (∀ n, n ∈ body st → (n < nextNode st)%nat)
  ∧ (∀ n, n ∈ body st ↔ ∃ k, nodeOf st k = Some n)
  ∧ (∀ k1 k2 n, nodeOf st k1 = Some n → nodeOf st k2 = Some n → k1 = k2).

(** What identifies a cursor's [div]: its node, colour and title.  Only
    its position is ever rewritten. *)
Definition identOf (st : State) (clientId : string) : option (nat * string * string) :=
  (λ c, (Cursor.node c, Cursor.backgroundColor c, Cursor.title c)) <$> cursors st !! clientId.

(** [st'] has the cursors of [st], possibly moved. *)
Definition sameCursors (st st' : State) : Prop :=
  body st' = body st ∧ nextNode st' = nextNode st
  ∧ ∀ k, identOf st' k = identOf st k.

(** [lo <= t1 <= ... <= tn <= hi] for the offsets [t1 ... tn] of [ps]. *)
Fixpoint chain (lo hi : Z) (ps : list Position.t) : Prop :=
  match ps with
  | [] => lo ≤ hi
  | p :: rest => lo ≤ Position.time p ∧ chain (Position.time p) hi rest
  end.

Definition startsAtZero (ps : list Position.t) : Prop :=
  match ps with
  | [] => True
  | p :: _ => Position.time p = 0
  end.

(** A batch whose offsets start at 0 and never decrease. *)
Definition wellTimed (ps : list Position.t) : Prop :=
  ps ≠ [] ∧ startsAtZero ps ∧ ∃ hi, chain 0 hi ps.

(** The buffer and its base time: no base time with an empty buffer; with
    a base time, offsets from 0 up to the time elapsed since the base (all
    0 when the base is the falsy 0). *)
Definition bufferInv (st : State) : Prop :=
  match baseTime st with
  | None => positions st = []
  | Some b =>
      positions st ≠ [] ∧ startsAtZero (positions st)
      ∧ chain 0 (if b =? 0 then 0 else clock st - b) (positions st)
  end.

Definition unanchored (p : Position.t) : Prop := Position.element p = EmptyString.

Definition isToggle (ev : Event) : bool :=
  match ev with
  | Message method => String.eqb method "setCursorCommunication"
  | _ => false
  end.

(** [c] occurs in [s]. *)
Fixpoint occurs (c : ascii) (s : string) : bool :=
  match s with
  | EmptyString => false
  | String c' rest => Ascii.eqb c' c || occurs c rest
  end.

(** ** The colour of the local participant *)

Module Random.
(** A value of [Math.random()]: the fraction [num / den], in [0, 1) when
    [0 <= num < den]. *)
Record t := mk { num : Z; den : Z }.

Definition inRange (r : t) : Prop := 0 ≤ num r < den r.

(** [Math.floor(r * 16)]. *)
Definition floor16 (r : t) : Z := (16 * num r) / den r.
End Random.

Definition letters : string := "0123456789ABCDEF".

(** [letters[k]] as it is appended to a string: the character, or
    [undefined] past the end. *)
Definition letterAt (k : Z) : string :=
  match String.get (Z.to_nat k) letters with
  | Some c => String c EmptyString
  | None => "undefined"
  end.

(** Lines 189-191: the loop of [getRandomColor], [n] rounds left, round
    [i] reading the [i]-th value of [Math.random()]. *)
Fixpoint colorLoop (n i : nat) (random : nat → Random.t) (color : string) : string :=
  match n with
  | O => color
  | S n' => colorLoop n' (S i) random (color +:+ letterAt (Random.floor16 (random i)))
  end.

(** Lines 186-193. *)
Definition getRandomColor (random : nat → Random.t) : string :=
  colorLoop 6 0 random "#".

Definition isHexDigit (c : ascii) : bool := occurs c letters.

Fixpoint allHex (s : string) : bool :=
  match s with
  | EmptyString => true
  | String c rest => isHexDigit c && allHex rest
  end.

(** ** The background script (src/background.js, lines 1-26) *)

Module Background.

(** The preference store [chrome.storage.sync]; the script only writes
    booleans to it. *)
Definition urlKey (url : string) : string := "cursorCommunication_" +:+ url.

(** [result[urlKey] == true]. *)
Definition isTrue (v : option bool) : bool :=
  match v with
  | Some true => true
  | _ => false
  end.

(** [!result[urlKey]]: a missing key reads as [undefined]. *)
Definition negation (v : option bool) : bool :=
  match v with
  | Some true => false
  | _ => true
  end.

(** The reply to [getCursorCommunication] for the tab at [url]. *)
Definition getCursorCommunication (lastError : bool) (url : string)
    (storage : gmap string bool) : bool :=
  if lastError then false else isTrue (storage !! urlKey url).

(** The callback of the read in the [setCursorCommunication] branch:
    [result] is what the read delivered, [storage] the store at the time
    of the write. *)
Definition writeBack (url : string) (result : option bool)
    (storage : gmap string bool) : gmap string bool :=
  <[urlKey url := negation result]> storage.

(** [setCursorCommunication] with nothing between its read and its
    write. *)
Definition setCursorCommunication (url : string) (storage : gmap string bool)
    : gmap string bool :=
  writeBack url (storage !! urlKey url) storage.

End Background.

(** ** Scheduling *)

Section Scheduling.

Lemma toInt32_small z : 0 ≤ z < 2147483648 → Z.max 0 (toInt32 z) = z.
Proof. intros Hz. unfold toInt32. rewrite Z.mod_small by lia. lia. Qed.

Lemma setTimeout_timers cb delay st :
  timers (setTimeout cb delay st)
  = timers st ++ [Timer.mk (clock st + Z.max 0 (toInt32 delay)) cb].
Proof. reflexivity. Qed.

Lemma scheduleReplay_cons cb p ps st :
  scheduleReplay cb (p :: ps) st
  = scheduleReplay cb ps (setTimeout (cb p) (Position.time p) st).
Proof. reflexivity. Qed.

Lemma scheduleReplay_timers cb ps st :
  timers (scheduleReplay cb ps st)
  = timers st
    ++ map (λ p, Timer.mk (clock st + Z.max 0 (toInt32 (Position.time p))) (cb p)) ps.
Proof.
  revert st. induction ps as [|p ps IH]; intros st.
  - simpl. by rewrite app_nil_r.
  - rewrite scheduleReplay_cons, IH, setTimeout_timers. simpl.
    by rewrite <- app_assoc.
Qed.

Lemma scheduleReplay_rest cb ps st :
  senderView (scheduleReplay cb ps st) = senderView st
  ∧ cursors (scheduleReplay cb ps st) = cursors st
  ∧ body (scheduleReplay cb ps st) = body st
  ∧ clock (scheduleReplay cb ps st) = clock st.
Proof.
  revert st. induction ps as [|p ps IH]; intros st; [done|].
  rewrite scheduleReplay_cons.
  destruct (IH (setTimeout (cb p) (Position.time p) st)) as (-> & -> & -> & ->).
  done.
Qed.

Lemma ensureCursor_rest m st :
  senderView (ensureCursor m st) = senderView st
  ∧ timers (ensureCursor m st) = timers st
  ∧ clock (ensureCursor m st) = clock st.
Proof. unfold ensureCursor. by destruct (cursors st !! _). Qed.

Lemma ensureCursor_tracked m st :
  is_Some (cursors (ensureCursor m st) !! PresenceMessage.clientId m).
Proof.
  unfold ensureCursor.
  destruct (cursors st !! PresenceMessage.clientId m) eqn:E; [by rewrite E|].
  simpl. rewrite lookup_insert_eq. eauto.
Qed.

Lemma onPresenceUpdate_timers m ps st :
  cursorCommunicationEnabled st = true →
  PresenceData.positions (PresenceMessage.data m) = Some ps →
  timers (onPresenceUpdate m st)
  = timers st
    ++ map (λ p, Timer.mk (clock st + Z.max 0 (toInt32 (Position.time p)))
                   (ReplayUpdate (PresenceMessage.clientId m) p)) ps.
Proof.
  intros Hen Hps. unfold onPresenceUpdate. rewrite Hen, Hps.
  rewrite scheduleReplay_timers.
  by destruct (ensureCursor_rest m st) as (_ & -> & ->).
Qed.

Lemma placed_moveCursor cid l t_ st :
  is_Some (cursors st !! cid) →
  placed (moveCursor cid l t_ st) cid = Some (Some (px l), Some (px t_)).
Proof.
  intros [c Hc]. unfold placed, moveCursor. simpl.
  rewrite lookup_alter_eq, Hc. done.
Qed.

End Scheduling.

(** ** Replay of a received batch *)

(** C1.  A batch received while the session is enabled, whose samples have
    non-negative offsets within the range of a timer delay (below 2^31
    ms), registers one timer per sample, in sample order, each due at the
    receipt time plus the sample's offset; a timer
    of a sample without anchor, fired while the participant has a cursor,
    draws the cursor at the sample's page coordinates.  In the scenario of
    the specification (offsets 0 and 50, received at 2000) the timers are
    due at 2000 and 2050 and the cursor is drawn at (10,10), then at
    (20,15). *)
Theorem C1_replay_schedule :
  (∀ st m ps,
     cursorCommunicationEnabled st = true →
     PresenceData.positions (PresenceMessage.data m) = Some ps →
     Forall (λ p, 0 ≤ Position.time p < 2147483648) ps →
     timers (onPresenceUpdate m st)
     = timers st
       ++ map (λ p, Timer.mk (clock st + Position.time p)
                      (ReplayUpdate (PresenceMessage.clientId m) p)) ps)
  ∧ (∀ doc cid p st,
       is_Some (cursors st !! cid) →
       Position.element p = EmptyString →
       fire doc (ReplayUpdate cid p) st
       = Done (moveCursor cid (Position.x p) (Position.y p) st)
       ∧ placed (moveCursor cid (Position.x p) (Position.y p) st) cid
         = Some (Some (px (Position.x p)), Some (px (Position.y p))))
  ∧ (∀ doc color,
       let st := run doc color
                   [Examples.toggle; AdvanceTo 2000; Update Examples.batchA]
                   (initial 0) in
       timers st = [Timer.mk 2000 (ReplayUpdate "A" Examples.s0);
                    Timer.mk 2050 (ReplayUpdate "A" Examples.s50)]
       ∧ placed st "A" = Some (None, None)
       ∧ placed (advanceTo doc 2000 st) "A" = Some (Some (px 10), Some (px 10))
       ∧ placed (advanceTo doc 2049 st) "A" = Some (Some (px 10), Some (px 10))
       ∧ placed (advanceTo doc 2050 st) "A" = Some (Some (px 20), Some (px 15))
       ∧ timers (advanceTo doc 2050 st) = []).
Proof.
  split; [|split].
  - intros st m ps Hen Hps Hnn.
    rewrite (onPresenceUpdate_timers m ps st Hen Hps). f_equal. clear Hps.
    induction Hnn as [|p l Hp _ IH]; [done|].
    simpl. rewrite IH. by rewrite toInt32_small.
  - intros doc cid p st Hc Hel. split.
    + destruct Hc as [c Hc]. simpl. unfold replayUpdate. by rewrite Hc, Hel.
    + by apply placed_moveCursor.
  - intros doc color. vm_compute. done.
Qed.

Lemma C1_replay_schedule_witness :
  timers (onPresenceUpdate Examples.batchA (set_enabled true (initial 2000)))
  = [Timer.mk 2000 (ReplayUpdate "A" Examples.s0);
     Timer.mk 2050 (ReplayUpdate "A" Examples.s50)].
Proof.
  apply (proj1 C1_replay_schedule (set_enabled true (initial 2000))
           Examples.batchA [Examples.s0; Examples.s50]).
  - reflexivity.
  - reflexivity.
  - repeat constructor; simpl; lia.
Defined.

(** C10.  When the selector of a replayed sample is evaluated, the element
    anchor is used only for exactly one match: with zero matches, or with
    two or more, the cursor is drawn at the sample's page coordinates;
    with one match (whose rectangle can be measured) it is drawn at the
    rectangle's origin plus the sample's offsets in the element. *)
Theorem C10_anchor_needs_unique_match doc cid p st els :
  is_Some (cursors st !! cid) →
  JsString.truthy (Position.element p) = true →
  Document.querySelectorAll doc (Position.element p) = Document.NodeList els →
  (length els ≠ 1%nat →
     replayUpdate doc cid p st
     = Done (moveCursor cid (Position.x p) (Position.y p) st)
     ∧ placed (settle (replayUpdate doc cid p st)) cid
       = Some (Some (px (Position.x p)), Some (px (Position.y p))))
  ∧ (∀ element rect,
       els = [element] →
       Element.getBoundingClientRect element = Some rect →
       placed (settle (replayUpdate doc cid p st)) cid
       = Some (Some (px (DOMRect.left rect + Position.xElement p)),
               Some (px (DOMRect.top rect + Position.yElement p)))).
Proof.
  intros Hc Htr Hq. pose proof Hc as [c Hc'].
  unfold replayUpdate. rewrite Hc', Htr, Hq. split.
  - intros Hlen.
    assert (theElement els = None) as ->.
    { destruct els as [|e1 [|e2 els']]; simpl in *; congruence. }
    split; [done|]. simpl. by apply placed_moveCursor.
  - intros element rect -> Hrect. simpl. rewrite Hrect. simpl.
    by apply placed_moveCursor.
Qed.

Lemma C10_anchor_needs_unique_match_witness :
  let st := onPresenceUpdate Examples.batchA (set_enabled true (initial 0)) in
  let p := Position.mk 300 400 3 4 0 ".item" in
  placed (settle (replayUpdate Examples.listPage "A" p st)) "A"
  = Some (Some (px 300), Some (px 400)).
Proof.
  refine (proj2 (proj1 (C10_anchor_needs_unique_match Examples.listPage "A"
                   (Position.mk 300 400 3 4 0 ".item")
                   (onPresenceUpdate Examples.batchA (set_enabled true (initial 0)))
                   [Examples.item1; Examples.item2] _ _ _) _)).
  - vm_compute. eauto.
  - reflexivity.
  - reflexivity.
  - simpl. lia.
Defined.

(** C2.  The lookup of a replayed sample's anchor can raise: when the
    stored selector is not a valid selector, [querySelectorAll] throws,
    the callback ends there, and the cursor keeps the position it had
    (none, if it had none); the page coordinates are not used. *)
Theorem C2_invalid_selector_leaves_position_unset doc cid p st :
  is_Some (cursors st !! cid) →
  JsString.truthy (Position.element p) = true →
  Document.querySelectorAll doc (Position.element p) = Document.SyntaxError →
  replayUpdate doc cid p st = Threw DOMSyntaxError st
  ∧ placed (settle (fire doc (ReplayUpdate cid p) st)) cid = placed st cid.
Proof.
  intros [c Hc] Htr Hq. simpl. unfold replayUpdate. by rewrite Hc, Htr, Hq.
Qed.

Lemma C2_invalid_selector_leaves_position_unset_witness :
  let sender := run Examples.senderPage "#00FF00"
                  [Examples.toggle; MouseMove (Examples.move 40 50); Interval]
                  (initial 0) in
  let p := Position.mk 40 50 40 50 0 ".foo." in
  let m := PresenceMessage.mk "A" 0 (PresenceData.mk (Some [p]) "#00FF00") in
  let st := run Examples.receiverPage "#FF0000" [Examples.toggle; Update m] (initial 0) in
  emitted sender = [[p]]
  ∧ placed st "A" = Some (None, None)
  ∧ replayUpdate Examples.receiverPage "A" p st = Threw DOMSyntaxError st
  ∧ placed (advanceTo Examples.receiverPage 1000 st) "A" = Some (None, None)
  ∧ timers (advanceTo Examples.receiverPage 1000 st) = [].
Proof.
  split; [reflexivity|]. split; [reflexivity|]. split.
  - refine (proj1 (C2_invalid_selector_leaves_position_unset Examples.receiverPage "A"
                     (Position.mk 40 50 40 50 0 ".foo.") _ _ _ _)).
    + vm_compute. eauto.
    + reflexivity.
    + reflexivity.
  - split; reflexivity.
Defined.

(** ** Capture *)

(** C8.  A pointer move delivered while the session is enabled, at a
    viewport point where [elementFromPoint] finds no element, raises a
    [TypeError] in the listener: no sample is stored. *)
Theorem C8_no_element_hit_throws doc e st :
  cursorCommunicationEnabled st = true →
  Document.elementFromPoint doc (MouseEvent.clientX e) (MouseEvent.clientY e) = None →
  onMouseMove doc e st = Threw TypeError st.
Proof. intros Hen Hhit. unfold onMouseMove. by rewrite Hen, Hhit. Qed.

Lemma C8_no_element_hit_throws_witness :
  let st := run Examples.blankPage "#00FF00" [Examples.toggle] (initial 0) in
  onMouseMove Examples.blankPage (Examples.move (-5) 40) st = Threw TypeError st
  ∧ positions (step Examples.blankPage "#00FF00" st (MouseMove (Examples.move (-5) 40))) = [].
Proof.
  split.
  - apply C8_no_element_hit_throws; reflexivity.
  - reflexivity.
Defined.

(** ** Presence snapshot *)

(** C9.  The loop over a presence snapshot ends at the first listed
    participant whose data carries no positions (one that entered and
    never sent a batch): that participant gets its cursor, the
    participants listed after it are not processed. *)
Theorem C9_snapshot_stops_at_idle_participant m rest st :
  PresenceData.positions (PresenceMessage.data m) = None →
  onPresenceSet false (m :: rest) st = ensureCursor m st.
Proof. intros Hps. simpl. by rewrite Hps. Qed.

Lemma C9_snapshot_stops_at_idle_participant_witness :
  let st := onPresenceSet false [Examples.idleA; Examples.idleB]
              (set_enabled true (initial 0)) in
  st = ensureCursor Examples.idleA (set_enabled true (initial 0))
  ∧ placed st "A" = Some (None, None)
  ∧ placed st "B" = None
  ∧ body st = [0%nat]
  ∧ placed (onPresenceLeave Examples.idleA st) "A" = None
  ∧ body (onPresenceLeave Examples.idleA st) = [].
Proof.
  split.
  - apply C9_snapshot_stops_at_idle_participant. reflexivity.
  - repeat split; reflexivity.
Defined.

(** ** What the cursor side leaves alone *)

Section Views.

Variable doc : Document.t.
Variable color : string.

Lemma fire_view cb st :
  senderView (settle (fire doc cb st)) = senderView st.
Proof.
  destruct cb as [cid p|cid p]; simpl; unfold replayUpdate, replaySnapshot;
    repeat case_match; done.
Qed.

Lemma runTimers_view fuel t st :
  senderView (runTimers doc fuel t st) = senderView st.
Proof.
  revert st. induction fuel as [|fuel IH]; intros st; [done|].
  simpl. destruct (nextDue t (timers st)) as [[tm rest]|]; [|done].
  by rewrite IH, fire_view.
Qed.

Lemma advanceTo_view t st : senderView (advanceTo doc t st) = senderView st.
Proof. unfold advanceTo. apply (runTimers_view _ t st). Qed.

Lemma onPresenceUpdate_view m st : senderView (onPresenceUpdate m st) = senderView st.
Proof.
  unfold onPresenceUpdate. destruct (cursorCommunicationEnabled st); [|done].
  destruct (PresenceData.positions _) as [ps|].
  - destruct (scheduleReplay_rest (ReplayUpdate (PresenceMessage.clientId m)) ps
                (ensureCursor m st)) as (-> & _).
    apply ensureCursor_rest.
  - apply ensureCursor_rest.
Qed.

Lemma onPresenceLeave_view m st : senderView (onPresenceLeave m st) = senderView st.
Proof. unfold onPresenceLeave. by destruct (cursors st !! _). Qed.

Lemma presenceSetLoop_view ms st : senderView (presenceSetLoop ms st) = senderView st.
Proof.
  revert st. induction ms as [|m ms IH]; intros st; [done|].
  simpl. destruct (PresenceData.positions _) as [ps|].
  - rewrite IH.
    destruct (scheduleReplay_rest (ReplaySnapshot (PresenceMessage.clientId m)) ps
                (ensureCursor m st)) as (-> & _).
    apply ensureCursor_rest.
  - apply ensureCursor_rest.
Qed.

Lemma onPresenceSet_view err ms st : senderView (onPresenceSet err ms st) = senderView st.
Proof. unfold onPresenceSet. destruct err; [done|]. apply presenceSetLoop_view. Qed.

Lemma clearLoop_rest l st :
  senderView (clearLoop l st) = senderView st
  ∧ timers (clearLoop l st) = timers st
  ∧ clock (clearLoop l st) = clock st.
Proof.
  revert st. induction l as [|kc l IH]; intros st; [done|].
  simpl. by destruct (IH (set_cursors (delete kc.1 (cursors st))
                      (set_body (removeChild (Cursor.node kc.2) (body st)) st)))
    as (-> & -> & ->).
Qed.

Lemma clearLoop_absent l st k :
  cursors st !! k = None → cursors (clearLoop l st) !! k = None.
Proof.
  revert st. induction l as [|kc l IH]; intros st Hk; [done|].
  simpl. apply IH. simpl. rewrite lookup_delete. by case_decide.
Qed.

Lemma clearLoop_deleted l st k c :
  (k, c) ∈ l → cursors (clearLoop l st) !! k = None.
Proof.
  revert st. induction l as [|kc l IH]; intros st Hin.
  - by apply elem_of_nil in Hin.
  - apply elem_of_cons in Hin as [<-|Hin]; [|by apply IH].
    simpl. apply clearLoop_absent. simpl. apply lookup_delete_eq.
Qed.

Lemma clearLoop_not_child l st n :
  n ∉ body st → n ∉ body (clearLoop l st).
Proof.
  revert st. induction l as [|kc l IH]; intros st Hn; [done|].
  simpl. apply IH. simpl. unfold removeChild.
  rewrite list_elem_of_filter. tauto.
Qed.

Lemma clearLoop_removed l st k c :
  (k, c) ∈ l → Cursor.node c ∉ body (clearLoop l st).
Proof.
  revert st. induction l as [|kc l IH]; intros st Hin.
  - by apply elem_of_nil in Hin.
  - apply elem_of_cons in Hin as [<-|Hin]; [|by apply IH].
    simpl. apply clearLoop_not_child. simpl. unfold removeChild.
    rewrite list_elem_of_filter. tauto.
Qed.

Lemma clearCursors_view st : senderView (clearCursors st) = senderView st.
Proof. apply (clearLoop_rest (map_to_list (cursors st)) st). Qed.

Lemma clearCursors_empty st : cursors (clearCursors st) = ∅.
Proof.
  apply map_empty. intros k.
  destruct (cursors st !! k) as [c|] eqn:E.
  - apply (clearLoop_deleted _ st k c). by apply elem_of_map_to_list.
  - by apply (clearLoop_absent _ st k).
Qed.

Lemma clearCursors_detached st k c :
  cursors st !! k = Some c → Cursor.node c ∉ body (clearCursors st).
Proof.
  intros E. apply (clearLoop_removed _ st k c). by apply elem_of_map_to_list.
Qed.

(** ** The flow of samples *)

Lemma view_flow st st' :
  senderView st' = senderView st →
  flow st' = flow st
  ∧ cursorCommunicationEnabled st' = cursorCommunicationEnabled st.
Proof. unfold senderView, flow, emitted. by intros [= -> -> _ ->]. Qed.

Lemma emitted_call c st : emitted (call c st) = emitted st ++ batchOf c.
Proof.
  unfold emitted. simpl. rewrite map_app, concat_app. simpl.
  by rewrite app_nil_r.
Qed.

Lemma onMouseMove_flow e st :
  flow (settle (onMouseMove doc e st))
  = flow st
    ++ match onMouseMove doc e st with
       | Done st' => drop (length (positions st)) (positions st')
       | Threw _ _ => []
       end
  ∧ map pagePoint
      match onMouseMove doc e st with
      | Done st' => drop (length (positions st)) (positions st')
      | Threw _ _ => []
      end
    = map eventPoint (if cursorCommunicationEnabled st && hits doc e then [e] else [])
  ∧ cursorCommunicationEnabled (settle (onMouseMove doc e st))
    = cursorCommunicationEnabled st.
Proof.
  unfold onMouseMove, hits, flow, emitted.
  destruct (cursorCommunicationEnabled st) eqn:Hen; simpl.
  - destruct (Document.elementFromPoint doc _ _) as [el|]; simpl.
    + destruct (Element.getBoundingClientRect el) as [rect|]; simpl.
      * rewrite drop_app_length, app_assoc. done.
      * by rewrite app_nil_r.
    + by rewrite app_nil_r.
  - rewrite drop_all. by rewrite app_nil_r.
Qed.

Lemma onInterval_flow st :
  flow (onInterval color st) = flow st
  ∧ cursorCommunicationEnabled (onInterval color st) = cursorCommunicationEnabled st.
Proof.
  unfold onInterval.
  destruct (cursorCommunicationEnabled st && _) eqn:E; [|done].
  split; [|done]. unfold flow at 1. simpl.
  change (emitted _) with
    (emitted (call (PresenceUpdate (PresenceData.mk (Some (positions st)) color)) st)).
  rewrite emitted_call. simpl. rewrite concat_app. simpl.
  by rewrite !app_nil_r.
Qed.

Lemma onMessage_flow method st :
  flow (onMessage color method st) = flow st
  ∧ cursorCommunicationEnabled (onMessage color method st)
    = (if String.eqb method "setCursorCommunication"
       then negb (cursorCommunicationEnabled st)
       else cursorCommunicationEnabled st).
Proof.
  unfold onMessage. destruct (String.eqb method _); [|done].
  destruct (cursorCommunicationEnabled st) eqn:Hen; simpl.
  - destruct (view_flow _ _ (clearCursors_view (set_enabled false st))) as [Hf He].
    split; [|exact He].
    transitivity (flow (clearCursors (set_enabled false st))); [|exact Hf].
    unfold flow. rewrite emitted_call. simpl. by rewrite app_nil_r.
  - split; [|done]. unfold flow. rewrite !emitted_call. simpl.
    by rewrite !app_nil_r.
Qed.

Lemma step_flow ev st :
  flow (step doc color st ev)
  = flow st
    ++ match ev with
       | MouseMove e =>
           match onMouseMove doc e st with
           | Done st' => drop (length (positions st)) (positions st')
           | Threw _ _ => []
           end
       | _ => []
       end
  ∧ cursorCommunicationEnabled (step doc color st ev)
    = match ev with
      | Message method =>
          if String.eqb method "setCursorCommunication"
          then negb (cursorCommunicationEnabled st)
          else cursorCommunicationEnabled st
      | _ => cursorCommunicationEnabled st
      end.
Proof.
  destruct ev as [e| |m|m|err ms|method|t]; unfold step; simpl.
  - destruct (onMouseMove_flow e st) as (H1 & _ & H3). by rewrite H1, H3.
  - rewrite app_nil_r. apply onInterval_flow.
  - rewrite app_nil_r. apply view_flow, onPresenceUpdate_view.
  - rewrite app_nil_r. apply view_flow, onPresenceLeave_view.
  - rewrite app_nil_r. apply view_flow, onPresenceSet_view.
  - rewrite app_nil_r. apply onMessage_flow.
  - rewrite app_nil_r. apply (view_flow st (advanceTo doc t st)), advanceTo_view.
Qed.

Lemma run_flow evs st :
  map pagePoint (flow (run doc color evs st))
  = map pagePoint (flow st)
    ++ map eventPoint (capturedEvents doc (cursorCommunicationEnabled st) evs).
Proof.
  revert st. induction evs as [|ev evs IH]; intros st.
  - simpl. by rewrite app_nil_r.
  - change (run doc color (ev :: evs) st) with (run doc color evs (step doc color st ev)).
    rewrite IH. destruct (step_flow ev st) as [Hf He]. rewrite Hf, He.
    rewrite map_app, <- app_assoc. f_equal.
    destruct ev as [e| |m|m|err ms|method|t]; simpl; try done.
    destruct (onMouseMove_flow e st) as (_ & -> & _).
    by rewrite map_app.
Qed.

End Views.

(** ** Batching *)

Lemma onMessage_toggle color st :
  onMessage color "setCursorCommunication" st
  = if cursorCommunicationEnabled st
    then call PresenceLeave (clearCursors (set_enabled false st))
    else call (PresenceEnter (PresenceData.mk None color))
           (call PresenceGet (set_enabled true st)).
Proof.
  unfold onMessage. change (String.eqb _ _) with true. cbv iota.
  by destruct (cursorCommunicationEnabled st).
Qed.

Lemma onInterval_flush color st :
  cursorCommunicationEnabled st = true →
  positions st ≠ [] →
  onInterval color st
  = set_buffer [] None
      (call (PresenceUpdate (PresenceData.mk (Some (positions st)) color)) st).
Proof.
  intros Hen Hne. unfold onInterval. rewrite Hen.
  by destruct (positions st).
Qed.

Lemma onInterval_idle color st :
  cursorCommunicationEnabled st = false ∨ positions st = [] →
  onInterval color st = st.
Proof.
  intros [H|H]; unfold onInterval; rewrite H; [done|].
  by rewrite andb_false_r.
Qed.

(** C3.  From the start of the script, along any sequence of events, the
    samples handed to the transport followed by the samples still in the
    buffer are, in order, the pointer events captured while the session
    was enabled: none is lost, none is sent twice, and their numbers
    agree.  After a flush of an enabled session the buffer is empty, so
    the emitted batches hold exactly the captured samples. *)
Theorem C3_emitted_samples_are_the_captured doc color evs t0 :
  let st := run doc color evs (initial t0) in
  map pagePoint (concat (emitted st) ++ positions st)
  = map eventPoint (capturedEvents doc false evs)
  ∧ (length (concat (emitted st)) + length (positions st))%nat
    = length (capturedEvents doc false evs)
  ∧ (cursorCommunicationEnabled st = true →
     positions (onInterval color st) = []
     ∧ map pagePoint (concat (emitted (onInterval color st)))
       = map eventPoint (capturedEvents doc false evs)
     ∧ length (concat (emitted (onInterval color st)))
       = length (capturedEvents doc false evs)).
Proof.
  intros st.
  assert (map pagePoint (flow st) = map eventPoint (capturedEvents doc false evs)) as Hflow.
  { unfold st. by rewrite run_flow. }
  split; [exact Hflow|]. split.
  - apply (f_equal length) in Hflow. unfold flow in Hflow.
    by rewrite !length_map, length_app in Hflow.
  - intros Hen.
    assert (positions (onInterval color st) = []) as Hempty.
    { destruct (positions st) eqn:E.
      - rewrite onInterval_idle; [done|by right].
      - rewrite onInterval_flush; [done|done|by rewrite E]. }
    destruct (onInterval_flow color st) as [Hf _].
    unfold flow at 1 in Hf. rewrite Hempty, app_nil_r in Hf.
    rewrite Hf. split; [done|]. split; [done|].
    apply (f_equal length) in Hflow. by rewrite !length_map in Hflow.
Qed.

Lemma C3_emitted_samples_are_the_captured_witness :
  let evs := [Examples.toggle;
              MouseMove (Examples.move 1 2); MouseMove (Examples.move 3 4); Interval;
              MouseMove (Examples.move 5 6); Interval; Interval;
              Examples.toggle; MouseMove (Examples.move 7 8); Examples.toggle;
              MouseMove (Examples.move 9 10)] in
  let st := run Examples.boxPage "#00FF00" evs (initial 0) in
  map (map pagePoint) (emitted st) = [[(1, 2); (3, 4)]; [(5, 6)]]
  ∧ map pagePoint (positions st) = [(9, 10)]
  ∧ map pagePoint (concat (emitted (onInterval "#00FF00" st)))
    = map eventPoint (capturedEvents Examples.boxPage false evs).
Proof.
  split; [reflexivity|]. split; [reflexivity|].
  apply (C3_emitted_samples_are_the_captured Examples.boxPage "#00FF00").
  reflexivity.
Defined.

(** C4 as stated fails: a sample captured before a disable is transmitted
    by the first flush after the session is enabled again. *)
Lemma C4_counterexample :
  let p := Position.mk 40 50 35 43 0 ".box" in
  let trace := [Examples.toggle; MouseMove (Examples.move 40 50); Examples.toggle] in
  let atDisable := run Examples.boxPage "#00FF00" trace (initial 0) in
  let later := run Examples.boxPage "#00FF00" (trace ++ [Examples.toggle; Interval])
                 (initial 0) in
  cursorCommunicationEnabled atDisable = false
  ∧ positions atDisable = [p]
  ∧ emitted atDisable = []
  ∧ emitted later = [[p]].
Proof. repeat split; reflexivity. Qed.

(** C4, amended.  Samples are captured and flushed only while the session
    is enabled; disabling mid-window keeps the partial batch in the
    buffer and transmits nothing, and the first flush after the session
    is enabled again transmits the retained samples. *)
Theorem C4_partial_batch_survives_toggle color st :
  cursorCommunicationEnabled st = true →
  positions st ≠ [] →
  let off := onMessage color "setCursorCommunication" st in
  let on_ := onMessage color "setCursorCommunication" off in
  cursorCommunicationEnabled off = false
  ∧ positions off = positions st
  ∧ baseTime off = baseTime st
  ∧ emitted off = emitted st
  ∧ (∀ doc e, onMouseMove doc e off = Done off)
  ∧ onInterval color off = off
  ∧ cursorCommunicationEnabled on_ = true
  ∧ emitted (onInterval color on_) = emitted st ++ [positions st].
Proof.
  intros Hen Hne off on_.
  assert (senderView off
          = (false, positions st, baseTime st, sent st ++ [PresenceLeave])) as Hoff.
  { unfold off. rewrite onMessage_toggle, Hen.
    pose proof (clearCursors_view (set_enabled false st)) as Hv.
    unfold senderView in *. simpl in *. by injection Hv as -> -> -> ->. }
  unfold senderView in Hoff. injection Hoff as Hoff_en Hoff_ps Hoff_bt Hoff_sent.
  assert (emitted off = emitted st) as Hem.
  { unfold emitted. rewrite Hoff_sent, map_app, concat_app. simpl.
    by rewrite app_nil_r. }
  repeat split; try done.
  - intros doc e. unfold onMouseMove. by rewrite Hoff_en.
  - apply onInterval_idle. by left.
  - unfold on_. by rewrite onMessage_toggle, Hoff_en.
  - unfold on_. rewrite onMessage_toggle, Hoff_en.
    rewrite onInterval_flush; [|done|simpl; by rewrite Hoff_ps].
    unfold emitted in *. simpl. rewrite !map_app, !concat_app. simpl.
    by rewrite Hem, Hoff_ps, !app_nil_r.
Qed.

Lemma C4_partial_batch_survives_toggle_witness :
  let p := Position.mk 40 50 35 43 0 ".box" in
  let st := run Examples.boxPage "#00FF00"
              [Examples.toggle; MouseMove (Examples.move 40 50)] (initial 0) in
  let off := onMessage "#00FF00" "setCursorCommunication" st in
  let on_ := onMessage "#00FF00" "setCursorCommunication" off in
  emitted off = [] ∧ emitted (onInterval "#00FF00" on_) = [] ++ [[p]].
Proof.
  pose proof (C4_partial_batch_survives_toggle "#00FF00"
                (run Examples.boxPage "#00FF00"
                   [Examples.toggle; MouseMove (Examples.move 40 50)] (initial 0))
                eq_refl ltac:(discriminate)) as H.
  split; [exact (proj1 (proj2 (proj2 (proj2 H))))|].
  exact (proj2 (proj2 (proj2 (proj2 (proj2 (proj2 (proj2 H))))))).
Defined.




(** ** Order of batches *)

(** C6 as stated fails: a batch stamped older than the one applied before
    it for the same participant is replayed like any other.  Here the
    older batch, received second, is the one that decides where the
    cursor ends up. *)
Lemma C6_counterexample :
  let newer := PresenceMessage.mk "A" 1000
                 (PresenceData.mk (Some [Position.mk 10 10 0 0 0 EmptyString]) "#00FF00") in
  let older := PresenceMessage.mk "A" 500
                 (PresenceData.mk (Some [Position.mk 99 99 0 0 0 EmptyString]) "#00FF00") in
  let st := run Examples.blankPage "#FF0000"
              [Examples.toggle; AdvanceTo 2000; Update newer; Update older] (initial 0) in
  PresenceMessage.timestamp older < PresenceMessage.timestamp newer
  ∧ length (timers st) = 2%nat
  ∧ placed (advanceTo Examples.blankPage 2000 st) "A"
    = Some (Some (px 99), Some (px 99)).
Proof. repeat split; reflexivity. Qed.

(** C6, amended.  The update handler never reads the timestamp of a
    message and drops no batch: a batch stamped older than the batch
    received just before it for the same participant, received while the
    session is enabled, gets one timer per sample, registered behind the
    timers already pending and due at its own receipt time plus the
    sample's offset as the host reads it (wrapped to 32 bits, a negative
    one counting as 0); and the handler does the same whatever the
    stamp. *)
Theorem C6_batches_applied_whatever_their_timestamp st m older ps :
  cursorCommunicationEnabled st = true →
  PresenceMessage.clientId older = PresenceMessage.clientId m →
  PresenceMessage.timestamp older < PresenceMessage.timestamp m →
  PresenceData.positions (PresenceMessage.data older) = Some ps →
  let st1 := onPresenceUpdate m st in
  timers (onPresenceUpdate older st1)
  = timers st1
    ++ map (λ p, Timer.mk (clock st1 + Z.max 0 (toInt32 (Position.time p)))
                   (ReplayUpdate (PresenceMessage.clientId m) p)) ps
  ∧ ∀ ts,
      onPresenceUpdate
        (PresenceMessage.mk (PresenceMessage.clientId older) ts (PresenceMessage.data older))
        st1
      = onPresenceUpdate older st1.
Proof.
  intros Hen Hid _ Hps st1. split.
  - rewrite <- Hid. apply onPresenceUpdate_timers; [|done].
    destruct (view_flow st st1 (onPresenceUpdate_view m st)) as [_ ->]. done.
  - intros ts. by destruct older.
Qed.

Lemma C6_batches_applied_whatever_their_timestamp_witness :
  let newer := PresenceMessage.mk "A" 1000
                 (PresenceData.mk (Some [Position.mk 10 10 0 0 0 EmptyString]) "#00FF00") in
  let older := PresenceMessage.mk "A" 500
                 (PresenceData.mk (Some [Position.mk 99 99 0 0 40 EmptyString]) "#00FF00") in
  let st1 := onPresenceUpdate newer (set_enabled true (initial 2000)) in
  timers (onPresenceUpdate older st1)
  = timers st1 ++ [Timer.mk 2040 (ReplayUpdate "A" (Position.mk 99 99 0 0 40 EmptyString))].
Proof.
  refine (proj1 (C6_batches_applied_whatever_their_timestamp
                   (set_enabled true (initial 2000))
                   (PresenceMessage.mk "A" 1000
                      (PresenceData.mk (Some [Position.mk 10 10 0 0 0 EmptyString]) "#00FF00"))
                   (PresenceMessage.mk "A" 500
                      (PresenceData.mk (Some [Position.mk 99 99 0 0 40 EmptyString]) "#00FF00"))
                   [Position.mk 99 99 0 0 40 EmptyString] _ _ _ _)).
  - reflexivity.
  - reflexivity.
  - reflexivity.
  - reflexivity.
Defined.

(** ** The toggle *)





(** * Further properties of the script *)

(** ** The clock and the buffer under the cursor-side handlers *)

Section Frames.

Variable doc : Document.t.
Variable color : string.

Lemma fire_clock cb st : clock (settle (fire doc cb st)) = clock st.
Proof.
  destruct cb as [cid p|cid p]; simpl; unfold replayUpdate, replaySnapshot;
    repeat case_match; done.
Qed.

Lemma runTimers_clock fuel t st : clock st ≤ clock (runTimers doc fuel t st).
Proof.
  revert st. induction fuel as [|fuel IH]; intros st; [done|].
  simpl. destruct (nextDue t (timers st)) as [[tm rest]|]; [|done].
  etrans; [|apply IH]. rewrite fire_clock. simpl. lia.
Qed.

Lemma advanceTo_clock t st :
  clock st ≤ clock (advanceTo doc t st) ∧ t ≤ clock (advanceTo doc t st).
Proof.
  unfold advanceTo. simpl.
  pose proof (runTimers_clock (length (timers st)) t st). lia.
Qed.

Lemma presenceSetLoop_clock ms st : clock (presenceSetLoop ms st) = clock st.
Proof.
  revert st. induction ms as [|m ms IH]; intros st; [done|].
  simpl. destruct (PresenceData.positions _) as [ps|].
  - rewrite IH.
    destruct (scheduleReplay_rest (ReplaySnapshot (PresenceMessage.clientId m)) ps
                (ensureCursor m st)) as (_ & _ & _ & ->).
    apply ensureCursor_rest.
  - apply ensureCursor_rest.
Qed.

Lemma onPresenceUpdate_clock m st : clock (onPresenceUpdate m st) = clock st.
Proof.
  unfold onPresenceUpdate. destruct (cursorCommunicationEnabled st); [|done].
  destruct (PresenceData.positions _) as [ps|].
  - destruct (scheduleReplay_rest (ReplayUpdate (PresenceMessage.clientId m)) ps
                (ensureCursor m st)) as (_ & _ & _ & ->).
    apply ensureCursor_rest.
  - apply ensureCursor_rest.
Qed.

Lemma view_emitted st st' :
  senderView st' = senderView st →
  positions st' = positions st ∧ baseTime st' = baseTime st ∧ emitted st' = emitted st.
Proof. unfold senderView, emitted. by intros [= _ -> -> ->]. Qed.

Lemma onMessage_buffer method st :
  positions (onMessage color method st) = positions st
  ∧ baseTime (onMessage color method st) = baseTime st
  ∧ emitted (onMessage color method st) = emitted st
  ∧ clock (onMessage color method st) = clock st.
Proof.
  unfold onMessage. destruct (String.eqb method _); [|done].
  destruct (cursorCommunicationEnabled st) eqn:Hen; simpl.
  - destruct (view_emitted _ _ (clearCursors_view (set_enabled false st)))
      as (Hp & Hb & He).
    destruct (clearLoop_rest (map_to_list (cursors (set_enabled false st)))
                (set_enabled false st)) as (_ & _ & Hc).
    repeat split; try done.
    change (emitted (call PresenceLeave (clearCursors (set_enabled false st)))
            = emitted (set_enabled false st)).
    rewrite emitted_call, He. simpl. by rewrite app_nil_r.
  - repeat split; try done.
    change (emitted (call (PresenceEnter (PresenceData.mk None color))
                       (call PresenceGet st)) = emitted st).
    rewrite !emitted_call. simpl. by rewrite !app_nil_r.
Qed.

(** Every handler but the mousemove listener and the interval callback
    leaves the buffer, its base time and the emitted batches alone, and
    the clock never goes back. *)
Lemma step_frame ev st :
  match ev with
  | MouseMove _ | Interval => True
  | _ =>
      positions (step doc color st ev) = positions st
      ∧ baseTime (step doc color st ev) = baseTime st
      ∧ emitted (step doc color st ev) = emitted st
      ∧ clock st ≤ clock (step doc color st ev)
  end.
Proof.
  destruct ev as [e| |m|m|err ms|method|t]; unfold step; cbn [handle settle]; try done.
  - destruct (view_emitted _ _ (onPresenceUpdate_view m st)) as (-> & -> & ->).
    by rewrite onPresenceUpdate_clock.
  - destruct (view_emitted _ _ (onPresenceLeave_view m st)) as (-> & -> & ->).
    repeat split; try done. unfold onPresenceLeave. by destruct (cursors st !! _).
  - destruct (view_emitted _ _ (onPresenceSet_view err ms st)) as (-> & -> & ->).
    repeat split; try done. unfold onPresenceSet. destruct err; [done|].
    by rewrite presenceSetLoop_clock.
  - destruct (onMessage_buffer method st) as (-> & -> & -> & ->). done.
  - destruct (view_emitted _ _ (advanceTo_view doc t st)) as (-> & -> & ->).
    repeat split; try done. apply advanceTo_clock.
Qed.

End Frames.

(** ** Offsets of the captured samples *)

Lemma chain_le lo hi ps : chain lo hi ps → lo ≤ hi.
Proof.
  revert lo. induction ps as [|p ps IH]; intros lo; simpl; [done|].
  intros [H1 H2]. apply IH in H2. lia.
Qed.

Lemma chain_weaken lo hi hi' ps : chain lo hi ps → hi ≤ hi' → chain lo hi' ps.
Proof.
  revert lo. induction ps as [|p ps IH]; intros lo; simpl; [lia|].
  intros [H1 H2] Hle. split; [done|]. by apply IH.
Qed.

Lemma chain_snoc lo hi hi' ps p :
  chain lo hi ps → hi ≤ Position.time p → Position.time p ≤ hi' →
  chain lo hi' (ps ++ [p]).
Proof.
  revert lo. induction ps as [|q ps IH]; intros lo; simpl.
  - lia.
  - intros [H1 H2] Hp Hhi. split; [done|]. by apply IH.
Qed.

Lemma chain_lookup_one lo hi ps i p :
  chain lo hi ps → ps !! i = Some p → lo ≤ Position.time p ≤ hi.
Proof.
  revert lo i. induction ps as [|q ps IH]; intros lo i Hc Hi; [done|].
  destruct Hc as [H1 H2]. destruct i as [|i]; simpl in Hi.
  - injection Hi as <-. apply chain_le in H2. lia.
  - destruct (IH _ _ H2 Hi). lia.
Qed.

Lemma chain_lookup lo hi ps i j p q :
  chain lo hi ps → (i ≤ j)%nat → ps !! i = Some p → ps !! j = Some q →
  lo ≤ Position.time p ∧ Position.time p ≤ Position.time q.
Proof.
  revert lo i j. induction ps as [|r ps IH]; intros lo i j Hc Hij Hi Hj; [done|].
  destruct Hc as [H1 H2]. destruct i as [|i]; simpl in Hi.
  - injection Hi as <-. split; [done|].
    destruct j as [|j]; simpl in Hj.
    + by injection Hj as <-.
    + by destruct (chain_lookup_one _ _ _ _ _ H2 Hj).
  - destruct j as [|j]; [lia|]. simpl in Hj.
    destruct (IH _ i j H2 ltac:(lia) Hi Hj). lia.
Qed.

Lemma startsAtZero_snoc ps p :
  ps ≠ [] → startsAtZero ps → startsAtZero (ps ++ [p]).
Proof. by destruct ps. Qed.

Section Offsets.

Variable doc : Document.t.
Variable color : string.

Lemma bufferInv_frame st st' :
  positions st' = positions st → baseTime st' = baseTime st →
  clock st ≤ clock st' → bufferInv st → bufferInv st'.
Proof.
  unfold bufferInv. intros -> -> Hclock. destruct (baseTime st) as [b|]; [|done].
  intros (Hne & Hz & Hc). repeat split; try done.
  destruct (b =? 0); [done|]. eapply chain_weaken; [done|lia].
Qed.

Lemma onMouseMove_bufferInv e st :
  bufferInv st → bufferInv (settle (onMouseMove doc e st)).
Proof.
  intros Hinv. unfold onMouseMove.
  destruct (cursorCommunicationEnabled st); [|done].
  destruct (Document.elementFromPoint doc _ _) as [el|]; [|done].
  destruct (Element.getBoundingClientRect el) as [rect|]; [|done].
  unfold bufferInv in *. simpl. unfold baseTime_or.
  destruct (baseTime st) as [b|].
  - destruct Hinv as (Hne & Hz & Hc). destruct (b =? 0) eqn:Hb.
    + split; [by destruct (positions st)|]. split; [by apply startsAtZero_snoc|].
      replace (if clock st =? 0 then 0 else clock st - clock st) with 0
        by (destruct (clock st =? 0); lia).
      eapply chain_snoc; [done|simpl; lia|simpl; lia].
    + rewrite Hb. split; [by destruct (positions st)|].
      split; [by apply startsAtZero_snoc|].
      eapply chain_snoc; [done|simpl; lia|simpl; lia].
  - rewrite Hinv. simpl. split; [done|]. split; [lia|].
    destruct (clock st =? 0); lia.
Qed.

Lemma onInterval_inv st :
  bufferInv st → Forall wellTimed (emitted st) →
  bufferInv (onInterval color st) ∧ Forall wellTimed (emitted (onInterval color st)).
Proof.
  intros Hinv Hem. unfold onInterval.
  destruct (cursorCommunicationEnabled st && _) eqn:E; [|done].
  apply andb_prop in E as [_ Hne].
  split; [done|].
  change (Forall wellTimed
            (emitted (call (PresenceUpdate (PresenceData.mk (Some (positions st)) color)) st))).
  rewrite emitted_call. simpl. apply Forall_app. split; [done|].
  apply Forall_singleton. unfold bufferInv in Hinv.
  destruct (baseTime st) as [b|].
  - destruct Hinv as (Hn & Hz & Hc). repeat split; eauto.
  - rewrite Hinv in Hne. done.
Qed.

Lemma step_offsets ev st :
  bufferInv st ∧ Forall wellTimed (emitted st) →
  bufferInv (step doc color st ev) ∧ Forall wellTimed (emitted (step doc color st ev)).
Proof.
  intros [Hinv Hem].
  destruct ev as [e| |m|m|err ms|method|t].
  - split; [by apply onMouseMove_bufferInv|].
    unfold step. simpl. unfold emitted.
    assert (sent (settle (onMouseMove doc e st)) = sent st) as ->; [|done].
    unfold onMouseMove. repeat case_match; done.
  - by apply onInterval_inv.
  - destruct (step_frame doc color (Update m) st) as (Hp & Hb & He & Hc).
    rewrite He. split; [|done]. by apply (bufferInv_frame st).
  - destruct (step_frame doc color (Leave m) st) as (Hp & Hb & He & Hc).
    rewrite He. split; [|done]. by apply (bufferInv_frame st).
  - destruct (step_frame doc color (PresenceSet err ms) st) as (Hp & Hb & He & Hc).
    rewrite He. split; [|done]. by apply (bufferInv_frame st).
  - destruct (step_frame doc color (Message method) st) as (Hp & Hb & He & Hc).
    rewrite He. split; [|done]. by apply (bufferInv_frame st).
  - destruct (step_frame doc color (AdvanceTo t) st) as (Hp & Hb & He & Hc).
    rewrite He. split; [|done]. by apply (bufferInv_frame st).
Qed.

Lemma run_offsets evs st :
  bufferInv st ∧ Forall wellTimed (emitted st) →
  bufferInv (run doc color evs st) ∧ Forall wellTimed (emitted (run doc color evs st)).
Proof.
  revert st. induction evs as [|ev evs IH]; intros st H; [done|].
  apply (IH (step doc color st ev)). by apply step_offsets.
Qed.

End Offsets.

(** X1.  Whatever happens from the start of the script, every batch handed
    to the transport is non-empty, its first sample has offset 0, and the
    offsets of its samples are non-negative and never decrease. *)
Theorem emitted_batches_are_well_timed doc color evs t0 batch :
  batch ∈ emitted (run doc color evs (initial t0)) →
  batch ≠ []
  ∧ (∀ p, head batch = Some p → Position.time p = 0)
  ∧ (∀ i j p q, (i ≤ j)%nat → batch !! i = Some p → batch !! j = Some q →
       0 ≤ Position.time p ∧ Position.time p ≤ Position.time q).
Proof.
  intros Hin.
  destruct (run_offsets doc color evs (initial t0)) as [_ Hall].
  { split; [done|]. unfold emitted. simpl. constructor. }
  rewrite Forall_forall in Hall. destruct (Hall batch Hin) as (Hne & Hz & hi & Hc).
  split; [done|]. split.
  - intros p Hp. destruct batch; simpl in *; [done|]. by injection Hp as <-.
  - intros i j p q Hij Hi Hj. by apply (chain_lookup 0 hi batch i j).
Qed.

Lemma emitted_batches_are_well_timed_witness :
  let evs := [Examples.toggle; AdvanceTo 1000; MouseMove (Examples.move 1 2);
              AdvanceTo 1030; MouseMove (Examples.move 3 4);
              AdvanceTo 1100; Interval] in
  let batch := [Position.mk 1 2 (-4) (-5) 0 ".box"; Position.mk 3 4 (-2) (-3) 30 ".box"] in
  emitted (run Examples.boxPage "#00FF00" evs (initial 0)) = [batch]
  ∧ batch ≠ [].
Proof.
  split; [reflexivity|].
  refine (proj1 (emitted_batches_are_well_timed Examples.boxPage "#00FF00"
                   [Examples.toggle; AdvanceTo 1000; MouseMove (Examples.move 1 2);
                    AdvanceTo 1030; MouseMove (Examples.move 3 4);
                    AdvanceTo 1100; Interval] 0 _ _)).
  vm_compute. apply list_elem_of_here.
Defined.

(** X2.  While the session is disabled and no toggle message arrives, no
    event changes the buffer, its base time or the calls made on the
    transport: nothing is captured and nothing is sent. *)
Theorem disabled_session_is_silent doc color evs st :
  cursorCommunicationEnabled st = false →
  forallb (λ ev, negb (isToggle ev)) evs = true →
  senderView (run doc color evs st) = senderView st.
Proof.
  revert st. induction evs as [|ev evs IH]; intros st Hen Hevs; [done|].
  simpl in Hevs. apply andb_prop in Hevs as [Hev Hrest].
  assert (senderView (step doc color st ev) = senderView st) as Hstep.
  { destruct ev as [e| |m|m|err ms|method|t]; unfold step; simpl.
    - unfold onMouseMove. by rewrite Hen.
    - unfold onInterval. by rewrite Hen.
    - apply onPresenceUpdate_view.
    - apply onPresenceLeave_view.
    - apply onPresenceSet_view.
    - unfold onMessage. simpl in Hev. by destruct (String.eqb method _).
    - apply advanceTo_view. }
  change (run doc color (ev :: evs) st) with (run doc color evs (step doc color st ev)).
  rewrite IH; [done| |done].
  unfold senderView in Hstep. by injection Hstep as -> _ _ _.
Qed.

Lemma disabled_session_is_silent_witness :
  let st := run Examples.boxPage "#00FF00"
              [Examples.toggle; MouseMove (Examples.move 1 2); Examples.toggle]
              (initial 0) in
  senderView (run Examples.boxPage "#00FF00"
                [MouseMove (Examples.move 3 4); Interval; Update Examples.batchA;
                 AdvanceTo 500; Message "other"; Interval] st)
  = senderView st.
Proof.
  apply disabled_session_is_silent; reflexivity.
Defined.

(** ** The cursor map and the body *)

Lemma nodeOf_identOf st k : nodeOf st k = (λ i, i.1.1) <$> identOf st k.
Proof. unfold nodeOf, identOf. by destruct (cursors st !! k). Qed.

Lemma sameCursors_refl st : sameCursors st st.
Proof. done. Qed.

Lemma sameCursors_trans st1 st2 st3 :
  sameCursors st1 st2 → sameCursors st2 st3 → sameCursors st1 st3.
Proof.
  intros (Hb & Hn & Hk) (Hb' & Hn' & Hk'). repeat split; [congruence..|].
  intros k. by rewrite Hk', Hk.
Qed.

Lemma sameCursors_nodeOf st st' k : sameCursors st st' → nodeOf st' k = nodeOf st k.
Proof. intros (_ & _ & Hk). by rewrite !nodeOf_identOf, Hk. Qed.

Lemma cursorInv_same st st' : sameCursors st st' → cursorInv st → cursorInv st'.
Proof.
  intros Hs (Hnd & Hlt & Hiff & Hinj). pose proof Hs as (Hb & Hn & _).
  unfold cursorInv. rewrite Hb, Hn. repeat split; try done.
  - intros Hin. apply Hiff in Hin as [k Hk]. exists k.
    by rewrite (sameCursors_nodeOf st st').
  - intros [k Hk]. apply Hiff. exists k. by rewrite <- (sameCursors_nodeOf st st').
  - intros k1 k2 n. rewrite !(sameCursors_nodeOf st st') by done. apply Hinj.
Qed.

Lemma moveCursor_same k l t_ st : sameCursors st (moveCursor k l t_ st).
Proof.
  repeat split. intros j. unfold identOf, moveCursor. simpl.
  destruct (decide (k = j)) as [->|Hne].
  - rewrite lookup_alter_eq. by destruct (cursors st !! j).
  - by rewrite lookup_alter_ne.
Qed.

Lemma scheduleReplay_same cb ps st : sameCursors st (scheduleReplay cb ps st).
Proof.
  revert st. induction ps as [|p ps IH]; intros st; [done|].
  rewrite scheduleReplay_cons.
  eapply sameCursors_trans; [|apply IH]. done.
Qed.

Section CursorMap.

Variable doc : Document.t.
Variable color : string.

Lemma fire_same cb st : sameCursors st (settle (fire doc cb st)).
Proof.
  destruct cb as [cid p|cid p]; simpl; unfold replayUpdate, replaySnapshot;
    repeat case_match; simpl; first [apply moveCursor_same | apply sameCursors_refl].
Qed.

Lemma runTimers_same fuel t st : sameCursors st (runTimers doc fuel t st).
Proof.
  revert st. induction fuel as [|fuel IH]; intros st; [done|].
  simpl. destruct (nextDue t (timers st)) as [[tm rest]|]; [|done].
  eapply sameCursors_trans; [|apply IH].
  apply (fire_same (Timer.callback tm)
           (set_clock (Z.max (clock st) (Timer.due tm)) (set_timers rest st))).
Qed.

Lemma advanceTo_same t st : sameCursors st (advanceTo doc t st).
Proof. apply (runTimers_same (length (timers st)) t st). Qed.

Lemma createCursor_inv k data st :
  cursors st !! k = None → cursorInv st → cursorInv (createCursor k data st).
Proof.
  intros Hk (Hnd & Hlt & Hiff & Hinj).
  assert (nodeOf st k = None) as Hnk by (unfold nodeOf; by rewrite Hk).
  assert (∀ j, nodeOf (createCursor k data st) j
               = if decide (k = j) then Some (nextNode st) else nodeOf st j) as Hnode.
  { intros j. unfold nodeOf, createCursor. simpl. rewrite lookup_insert.
    by case_decide. }
  assert (nextNode st ∉ body st) as Hfresh.
  { intros Hin. apply Hlt in Hin. lia. }
  unfold cursorInv. simpl. repeat split.
  - apply NoDup_app. repeat split; [done| |apply NoDup_singleton].
    intros n Hn Hn'. apply list_elem_of_singleton in Hn'. by subst.
  - intros n Hn. apply elem_of_app in Hn as [Hn|Hn].
    + apply Hlt in Hn. lia.
    + apply list_elem_of_singleton in Hn. lia.
  - intros Hn. apply elem_of_app in Hn as [Hn|Hn].
    + apply Hiff in Hn as [j Hj]. exists j. rewrite Hnode.
      case_decide; [congruence|done].
    + apply list_elem_of_singleton in Hn as ->. exists k. rewrite Hnode.
      by case_decide.
  - intros [j Hj]. rewrite Hnode in Hj. apply elem_of_app. case_decide.
    + right. apply list_elem_of_singleton. congruence.
    + left. apply Hiff. eauto.
  - intros k1 k2 n. rewrite !Hnode. repeat case_decide; try congruence.
    + intros [= <-] H2. exfalso. apply Hfresh, Hiff. eauto.
    + intros H1 [= <-]. exfalso. apply Hfresh, Hiff. eauto.
    + apply Hinj.
Qed.

Lemma ensureCursor_inv m st : cursorInv st → cursorInv (ensureCursor m st).
Proof.
  unfold ensureCursor. destruct (cursors st !! _) eqn:E; [done|].
  by apply createCursor_inv.
Qed.

Lemma onPresenceUpdate_inv m st : cursorInv st → cursorInv (onPresenceUpdate m st).
Proof.
  intros Hinv. unfold onPresenceUpdate.
  destruct (cursorCommunicationEnabled st); [|done].
  destruct (PresenceData.positions _) as [ps|]; [|by apply ensureCursor_inv].
  eapply cursorInv_same; [apply scheduleReplay_same|by apply ensureCursor_inv].
Qed.

Lemma presenceSetLoop_inv ms st : cursorInv st → cursorInv (presenceSetLoop ms st).
Proof.
  revert st. induction ms as [|m ms IH]; intros st Hinv; [done|].
  simpl. destruct (PresenceData.positions _) as [ps|]; [|by apply ensureCursor_inv].
  apply IH. eapply cursorInv_same; [apply scheduleReplay_same|by apply ensureCursor_inv].
Qed.

Lemma onPresenceLeave_inv m st : cursorInv st → cursorInv (onPresenceLeave m st).
Proof.
  intros (Hnd & Hlt & Hiff & Hinj). unfold onPresenceLeave.
  set (k := PresenceMessage.clientId m).
  destruct (cursors st !! k) as [c|] eqn:E; [|done].
  assert (nodeOf st k = Some (Cursor.node c)) as Hnk by (unfold nodeOf; by rewrite E).
  assert (∀ j, nodeOf (set_cursors (delete k (cursors st))
                         (set_body (removeChild (Cursor.node c) (body st)) st)) j
               = if decide (k = j) then None else nodeOf st j) as Hnode.
  { intros j. unfold nodeOf. simpl. rewrite lookup_delete. by case_decide. }
  unfold cursorInv. simpl. unfold removeChild. repeat split.
  - by apply NoDup_filter.
  - intros n Hn. apply list_elem_of_filter in Hn as [_ Hn]. by apply Hlt.
  - intros Hn. apply list_elem_of_filter in Hn as [Hne Hn].
    apply Hiff in Hn as [j Hj]. exists j. rewrite Hnode.
    case_decide; [congruence|done].
  - intros [j Hj]. rewrite Hnode in Hj. case_decide; [done|].
    apply list_elem_of_filter. split; [|apply Hiff; eauto].
    intros ->. by apply H, (Hinj k j (Cursor.node c)).
  - intros k1 k2 n. rewrite !Hnode. repeat case_decide; try done. apply Hinj.
Qed.

Lemma clearLoop_body_sub l st n : n ∈ body (clearLoop l st) → n ∈ body st.
Proof.
  revert st. induction l as [|kc l IH]; intros st Hn; [done|].
  simpl in Hn. apply IH in Hn. simpl in Hn. unfold removeChild in Hn.
  by apply list_elem_of_filter in Hn as [_ Hn].
Qed.

Lemma clearCursors_body st : cursorInv st → body (clearCursors st) = [].
Proof.
  intros (_ & _ & Hiff & _). apply elem_of_nil_inv. intros n Hn.
  pose proof (clearLoop_body_sub _ _ _ Hn) as Hin.
  apply Hiff in Hin as [k Hk]. unfold nodeOf in Hk.
  destruct (cursors st !! k) as [c|] eqn:E; [|done]. injection Hk as <-.
  by apply (clearCursors_detached st k c E).
Qed.

Lemma cleared_inv st :
  cursors st = ∅ → body st = [] → cursorInv st.
Proof.
  intros Hc Hb. unfold cursorInv, nodeOf. rewrite Hc, Hb. repeat split.
  - apply NoDup_nil_2.
  - intros n Hn. by apply elem_of_nil in Hn.
  - intros Hn. by apply elem_of_nil in Hn.
  - intros [k Hk]. by rewrite lookup_empty in Hk.
  - intros k1 k2 n Hk. by rewrite lookup_empty in Hk.
Qed.

Lemma onMessage_inv method st : cursorInv st → cursorInv (onMessage color method st).
Proof.
  intros Hinv. unfold onMessage. destruct (String.eqb method _); [|done].
  destruct (cursorCommunicationEnabled st); simpl.
  - apply cleared_inv; simpl.
    + apply clearCursors_empty.
    + by apply (clearCursors_body (set_enabled false st)).
  - done.
Qed.

Lemma step_inv ev st : cursorInv st → cursorInv (step doc color st ev).
Proof.
  intros Hinv. destruct ev as [e| |m|m|err ms|method|t]; unfold step;
    cbn [handle settle].
  - unfold onMouseMove. repeat case_match; done.
  - unfold onInterval. by case_match.
  - by apply onPresenceUpdate_inv.
  - by apply onPresenceLeave_inv.
  - unfold onPresenceSet. destruct err; [done|]. by apply presenceSetLoop_inv.
  - by apply onMessage_inv.
  - eapply cursorInv_same; [apply advanceTo_same|done].
Qed.

End CursorMap.

Lemma run_inv doc color evs st : cursorInv st → cursorInv (run doc color evs st).
Proof.
  revert st. induction evs as [|ev evs IH]; intros st Hinv; [done|].
  apply (IH (step doc color st ev)). by apply step_inv.
Qed.

Lemma reachable_inv doc color evs t0 : cursorInv (run doc color evs (initial t0)).
Proof. apply run_inv. by apply cleared_inv. Qed.

(** X3.  From the start of the script, along any sequence of events, the
    children of the body are exactly the nodes of the cursors in the map,
    each once and one per participant: no cursor [div] is left behind and
    none is shared. *)
Theorem body_holds_exactly_the_tracked_cursors doc color evs t0 :
  cursorInv (run doc color evs (initial t0)).
Proof. apply reachable_inv. Qed.

(** X4.  In every state the script can reach, the toggle that disables
    the session empties both the cursor map and the body. *)
Theorem disabling_leaves_no_cursor_node doc color evs t0 :
  let st := run doc color evs (initial t0) in
  cursorCommunicationEnabled st = true →
  cursors (onMessage color "setCursorCommunication" st) = ∅
  ∧ body (onMessage color "setCursorCommunication" st) = [].
Proof.
  intros st Hen. rewrite onMessage_toggle, Hen. simpl. split.
  - apply clearCursors_empty.
  - apply (clearCursors_body (set_enabled false st)).
    apply (reachable_inv doc color evs t0).
Qed.

Lemma disabling_leaves_no_cursor_node_witness :
  let st := run Examples.blankPage "#FF0000"
              [Examples.toggle; Update Examples.batchA;
               PresenceSet false [Examples.idleB]] (initial 0) in
  body st = [0%nat; 1%nat]
  ∧ body (onMessage "#FF0000" "setCursorCommunication" st) = [].
Proof.
  split; [reflexivity|].
  apply (disabling_leaves_no_cursor_node Examples.blankPage "#FF0000"
           [Examples.toggle; Update Examples.batchA;
            PresenceSet false [Examples.idleB]] 0).
  reflexivity.
Defined.

(** ** Leaving, and what timers and messages do to a cursor *)

Lemma leave_gone m st :
  cursors (onPresenceLeave m st) !! PresenceMessage.clientId m = None.
Proof.
  unfold onPresenceLeave.
  destruct (cursors st !! PresenceMessage.clientId m) eqn:E; [|done].
  simpl. apply lookup_delete_eq.
Qed.

(** X5.  A leave removes the cursor of the participant named in it and no
    other: the entry is deleted and its node detached, every other entry
    is untouched, the body keeps every child but that node (so, in a state
    where the map and the body agree, the node of every other participant
    stays in the body), a leave of an untracked participant changes
    nothing, and a repeated leave is the same as one. *)
Theorem leave_removes_one_participant m st :
  cursors (onPresenceLeave m st) !! PresenceMessage.clientId m = None
  ∧ (∀ c, cursors st !! PresenceMessage.clientId m = Some c →
          Cursor.node c ∉ body (onPresenceLeave m st))
  ∧ (∀ k, k ≠ PresenceMessage.clientId m →
          cursors (onPresenceLeave m st) !! k = cursors st !! k)
  ∧ (∀ n, n ∈ body (onPresenceLeave m st)
          ↔ n ∈ body st
            ∧ ∀ c, cursors st !! PresenceMessage.clientId m = Some c → n ≠ Cursor.node c)
  ∧ (cursorInv st →
     ∀ k c, k ≠ PresenceMessage.clientId m → cursors st !! k = Some c →
            Cursor.node c ∈ body (onPresenceLeave m st))
  ∧ (cursors st !! PresenceMessage.clientId m = None → onPresenceLeave m st = st)
  ∧ onPresenceLeave m (onPresenceLeave m st) = onPresenceLeave m st.
Proof.
  pose proof (leave_gone m st) as Hgone.
  assert (∀ n, n ∈ body (onPresenceLeave m st)
               ↔ n ∈ body st
                 ∧ ∀ c, cursors st !! PresenceMessage.clientId m = Some c
                        → n ≠ Cursor.node c) as Hbody.
  { intros n. unfold onPresenceLeave.
    destruct (cursors st !! PresenceMessage.clientId m) as [c|] eqn:E.
    - simpl. unfold removeChild. rewrite list_elem_of_filter. split.
      + intros [Hne Hin]. split; [done|]. by intros c' [= <-].
      + intros [Hin Hne]. split; [|done]. by apply Hne.
    - split; [|by intros [? _]]. intros Hin. split; [done|]. by intros c' [=]. }
  split; [done|]. split; [|split; [|split; [|split; [|split]]]].
  - intros c Hc. unfold onPresenceLeave. rewrite Hc. simpl. unfold removeChild.
    rewrite list_elem_of_filter. tauto.
  - intros k Hk. unfold onPresenceLeave.
    destruct (cursors st !! PresenceMessage.clientId m) eqn:E; [|done].
    simpl. by rewrite lookup_delete_ne.
  - exact Hbody.
  - intros (_ & _ & Hiff & Hinj) k c Hk Hc. apply Hbody.
    assert (nodeOf st k = Some (Cursor.node c)) as Hnk by (unfold nodeOf; by rewrite Hc).
    split; [apply Hiff; eauto|].
    intros c' Hc' Heq. apply Hk.
    apply (Hinj k (PresenceMessage.clientId m) (Cursor.node c)); [done|].
    unfold nodeOf. rewrite Hc'. simpl. by rewrite Heq.
  - intros Hnone. unfold onPresenceLeave. by rewrite Hnone.
  - unfold onPresenceLeave at 1. by rewrite Hgone.
Qed.

(** X6.  Replay timers only move cursors: however far time advances, the
    body, and the node, colour and title of every tracked cursor stay the
    same, and no timer brings back the cursor of a participant that has
    left. *)
Theorem timers_only_move_cursors doc t st :
  body (advanceTo doc t st) = body st
  ∧ (∀ k, identOf (advanceTo doc t st) k = identOf st k)
  ∧ (∀ m, placed (advanceTo doc t (onPresenceLeave m st)) (PresenceMessage.clientId m)
          = None).
Proof.
  split; [apply advanceTo_same|]. split; [apply advanceTo_same|].
  intros m.
  destruct (advanceTo_same doc t (onPresenceLeave m st)) as (_ & _ & Hk).
  specialize (Hk (PresenceMessage.clientId m)). unfold identOf, placed in *.
  rewrite (leave_gone m st) in Hk.
  by destruct (cursors (advanceTo doc t (onPresenceLeave m st)) !! _).
Qed.

Lemma ensureCursor_keeps k c m st :
  cursors st !! k = Some c → cursors (ensureCursor m st) !! k = Some c.
Proof.
  intros Hk. unfold ensureCursor.
  destruct (cursors st !! PresenceMessage.clientId m) eqn:E; [done|].
  simpl. rewrite lookup_insert_ne; [done|]. intros <-. congruence.
Qed.

Lemma scheduleReplay_cursors cb ps st : cursors (scheduleReplay cb ps st) = cursors st.
Proof. by destruct (scheduleReplay_rest cb ps st) as (_ & -> & _). Qed.

Lemma presenceSetLoop_keeps k c ms st :
  cursors st !! k = Some c → cursors (presenceSetLoop ms st) !! k = Some c.
Proof.
  revert st. induction ms as [|m ms IH]; intros st Hk; [done|].
  simpl. destruct (PresenceData.positions _) as [ps|].
  - apply IH. rewrite scheduleReplay_cursors. by apply ensureCursor_keeps.
  - by apply ensureCursor_keeps.
Qed.

(** X7.  Neither a presence update nor a presence snapshot replaces or
    moves a cursor that is already tracked: the entry, with its node, its
    colour and its position, is the same after the handler.  A cursor
    keeps the colour of the first message that created it, and moves only
    when a timer fires. *)
Theorem messages_keep_tracked_cursors k c m err ms st :
  cursors st !! k = Some c →
  cursors (onPresenceUpdate m st) !! k = Some c
  ∧ cursors (onPresenceSet err ms st) !! k = Some c.
Proof.
  intros Hk. split.
  - unfold onPresenceUpdate. destruct (cursorCommunicationEnabled st); [|done].
    destruct (PresenceData.positions _) as [ps|].
    + rewrite scheduleReplay_cursors. by apply ensureCursor_keeps.
    + by apply ensureCursor_keeps.
  - unfold onPresenceSet. destruct err; [done|]. by apply presenceSetLoop_keeps.
Qed.

Lemma messages_keep_tracked_cursors_witness :
  let st := run Examples.blankPage "#FF0000"
              [Examples.toggle; Update Examples.batchA; AdvanceTo 10] (initial 0) in
  let recoloured := PresenceMessage.mk "A" 2000
                      (PresenceData.mk (Some [Examples.s50]) "#FFFFFF") in
  let c := Cursor.mk 0 "#00FF00" "A" (Some (px 10)) (Some (px 10)) in
  cursors (onPresenceUpdate recoloured st) !! "A" = Some c
  ∧ cursors (onPresenceSet false [recoloured] st) !! "A" = Some c.
Proof.
  apply messages_keep_tracked_cursors. reflexivity.
Defined.

(** ** The presence snapshot *)

Lemma presenceSetLoop_app ms l st :
  Forall (λ m, is_Some (PresenceData.positions (PresenceMessage.data m))) ms →
  presenceSetLoop (ms ++ l) st = presenceSetLoop l (presenceSetLoop ms st).
Proof.
  intros Hall. revert st. induction Hall as [|m ms [ps Hps] _ IH]; intros st; [done|].
  simpl. rewrite Hps. apply IH.
Qed.

Lemma presenceSetLoop_tracks ms m st :
  Forall (λ m, is_Some (PresenceData.positions (PresenceMessage.data m))) ms →
  m ∈ ms →
  is_Some (cursors (presenceSetLoop ms st) !! PresenceMessage.clientId m).
Proof.
  intros Hall. revert st. induction Hall as [|m0 ms [ps Hps] _ IH]; intros st Hin.
  - by apply elem_of_nil in Hin.
  - simpl. rewrite Hps. apply elem_of_cons in Hin as [->|Hin]; [|by apply IH].
    destruct (ensureCursor_tracked m0 st) as [c Hc].
    exists c. apply presenceSetLoop_keeps. by rewrite scheduleReplay_cursors.
Qed.

(** X8.  When every participant listed in a presence snapshot carries
    positions, each of them whose id is not a property name of
    [Object.prototype] has a cursor after the callback, whether or not
    the session is enabled at that time. *)
Theorem snapshot_tracks_every_listed_participant ms m st :
  Forall (λ m, is_Some (PresenceData.positions (PresenceMessage.data m))) ms →
  m ∈ ms →
  inheritedKey (PresenceMessage.clientId m) = false →
  is_Some (cursors (onPresenceSet false ms st) !! PresenceMessage.clientId m).
Proof. intros Hall Hin _. by apply presenceSetLoop_tracks. Qed.

Lemma snapshot_tracks_every_listed_participant_witness :
  is_Some (cursors (onPresenceSet false
                      [Examples.batchA;
                       PresenceMessage.mk "B" 5 (PresenceData.mk (Some []) "#0000BB")]
                      (initial 0)) !! "B").
Proof.
  apply (snapshot_tracks_every_listed_participant
           [Examples.batchA;
            PresenceMessage.mk "B" 5 (PresenceData.mk (Some []) "#0000BB")]
           (PresenceMessage.mk "B" 5 (PresenceData.mk (Some []) "#0000BB"))
           (initial 0)).
  - repeat constructor; simpl; eauto.
  - apply list_elem_of_further, list_elem_of_here.
  - reflexivity.
Defined.

(** X9.  The loop over a presence snapshot processes the listed
    participants in order up to the first one whose data carries no
    positions, wherever it is in the list: that participant and those
    before it have a cursor (their ids not being property names of
    [Object.prototype]), those after it are not looked at. *)
Theorem snapshot_stops_at_the_first_idle_participant ms m rest st :
  Forall (λ m, is_Some (PresenceData.positions (PresenceMessage.data m))) ms →
  PresenceData.positions (PresenceMessage.data m) = None →
  Forall (λ m', inheritedKey (PresenceMessage.clientId m') = false) (ms ++ [m]) →
  presenceSetLoop (ms ++ m :: rest) st = ensureCursor m (presenceSetLoop ms st)
  ∧ (∀ m', m' ∈ ms ++ [m] →
       is_Some (cursors (presenceSetLoop (ms ++ m :: rest) st)
                  !! PresenceMessage.clientId m')).
Proof.
  intros Hall Hidle _.
  assert (presenceSetLoop (ms ++ m :: rest) st = ensureCursor m (presenceSetLoop ms st))
    as Heq.
  { rewrite presenceSetLoop_app by done. simpl. by rewrite Hidle. }
  split; [done|]. intros m' Hin. rewrite Heq.
  apply elem_of_app in Hin as [Hin|Hin].
  - destruct (presenceSetLoop_tracks ms m' st Hall Hin) as [c Hc].
    exists c. by apply ensureCursor_keeps.
  - apply list_elem_of_singleton in Hin as ->. apply ensureCursor_tracked.
Qed.

Lemma snapshot_stops_at_the_first_idle_participant_witness :
  let st := presenceSetLoop [Examples.batchA; Examples.idleB; Examples.idleA] (initial 0) in
  st = ensureCursor Examples.idleB (presenceSetLoop [Examples.batchA] (initial 0))
  ∧ body st = [0%nat; 1%nat].
Proof.
  split; [|reflexivity].
  refine (proj1 (snapshot_stops_at_the_first_idle_participant
                   [Examples.batchA] Examples.idleB [Examples.idleA] (initial 0) _ _ _)).
  - repeat constructor; simpl; eauto.
  - reflexivity.
  - repeat constructor.
Defined.

(** ** Replay to the end of a batch *)

Lemma chain_Forall lo hi ps :
  chain lo hi ps → Forall (λ p, lo ≤ Position.time p ≤ hi) ps.
Proof.
  intros Hc. apply Forall_lookup. intros i p Hi.
  by apply (chain_lookup_one lo hi ps i).
Qed.

Lemma earliest_head tm rest :
  Forall (λ tm', Timer.due tm ≤ Timer.due tm') rest → earliest tm rest = tm.
Proof.
  induction 1 as [|tm' rest Hle _ IH]; [done|].
  simpl. destruct (Timer.due tm' <? Timer.due tm) eqn:E; [lia|done].
Qed.

Lemma nextDue_head t tm rest :
  Forall (λ tm', Timer.due tm ≤ Timer.due tm') rest →
  Timer.due tm ≤ t →
  nextDue t (tm :: rest) = Some (tm, rest).
Proof.
  intros Hall Hdue. unfold nextDue. rewrite earliest_head by done.
  destruct (Timer.due tm <=? t) eqn:E; [|lia].
  simpl. by rewrite Z.eqb_refl.
Qed.

Section ReplayToTheEnd.

Variable doc : Document.t.

Lemma runTimers_replay cid c0 t hi l :
  ∀ lo st fuel,
    timers st = map (λ p, Timer.mk (c0 + Position.time p) (ReplayUpdate cid p)) l →
    chain lo hi l →
    c0 + hi ≤ t →
    Forall unanchored l →
    is_Some (cursors st !! cid) →
    (length l ≤ fuel)%nat →
    timers (runTimers doc fuel t st) = []
    ∧ placed (runTimers doc fuel t st) cid
      = match last l with
        | Some p => Some (Some (px (Position.x p)), Some (px (Position.y p)))
        | None => placed st cid
        end.
Proof.
  induction l as [|p l IH]; intros lo st fuel Htm Hc Hhi Hun Hcur Hfuel.
  - simpl in Htm. destruct fuel as [|fuel]; simpl; [done|]. by rewrite Htm.
  - destruct fuel as [|fuel]; [simpl in Hfuel; lia|].
    destruct Hc as [Hlo Hc]. simpl in Htm.
    apply Forall_cons in Hun as [Hp Hun].
    simpl. rewrite Htm. rewrite nextDue_head; cycle 1.
    { apply Forall_fmap, Forall_forall. intros q Hq. simpl.
      pose proof (chain_Forall _ _ _ Hc) as Hall.
      rewrite Forall_forall in Hall. specialize (Hall q Hq). simpl in Hall. lia. }
    { simpl. apply chain_le in Hc. lia. }
    simpl. unfold replayUpdate. simpl. destruct Hcur as [c Hcur].
    rewrite Hcur. unfold unanchored in Hp. rewrite Hp. simpl.
    set (st1 := moveCursor cid (Position.x p) (Position.y p)
                  (set_clock _ (set_timers _ st))).
    assert (is_Some (cursors st1 !! cid)) as Hcur1.
    { unfold st1, moveCursor. simpl. rewrite lookup_alter_eq, Hcur. eauto. }
    destruct (IH (Position.time p) st1 fuel) as [Ht Hpl]; try done.
    { simpl in Hfuel. lia. }
    split; [done|]. rewrite Hpl, last_cons.
    destruct (last l); [done|].
    apply (placed_moveCursor cid (Position.x p) (Position.y p)
             (set_clock (Z.max (clock st) (c0 + Position.time p))
                (set_timers
                   (map (λ q, Timer.mk (c0 + Position.time q) (ReplayUpdate cid q)) l) st))).
    simpl. rewrite Hcur. eauto.
Qed.

End ReplayToTheEnd.

(** X10.  A batch of samples without anchor, whose offsets are
    non-negative, never decrease and are at most [hi], itself within the
    range of a timer delay (below 2^31 ms), received from a participant
    whose id is not a property name of [Object.prototype] by an enabled
    session with no timer pending: once the clock has reached the receipt
    time plus [hi], every timer of the batch has fired and the
    participant's cursor is drawn at the page coordinates of the last
    sample. *)
Theorem replay_ends_at_the_last_sample doc m ps p hi t st :
  cursorCommunicationEnabled st = true →
  inheritedKey (PresenceMessage.clientId m) = false →
  hi < 2147483648 →
  timers st = [] →
  PresenceData.positions (PresenceMessage.data m) = Some ps →
  Forall unanchored ps →
  chain 0 hi ps →
  last ps = Some p →
  clock st + hi ≤ t →
  timers (advanceTo doc t (onPresenceUpdate m st)) = []
  ∧ placed (advanceTo doc t (onPresenceUpdate m st)) (PresenceMessage.clientId m)
    = Some (Some (px (Position.x p)), Some (px (Position.y p))).
Proof.
  intros Hen _ Hhi Htm Hps Hun Hc Hlast Ht.
  set (st1 := onPresenceUpdate m st).
  assert (timers st1
          = map (λ q, Timer.mk (clock st + Position.time q)
                        (ReplayUpdate (PresenceMessage.clientId m) q)) ps) as Htm1.
  { unfold st1. rewrite (onPresenceUpdate_timers m ps st Hen Hps), Htm. simpl.
    apply map_ext_Forall. eapply Forall_impl; [by apply chain_Forall|].
    intros q Hq. simpl in *. f_equal. rewrite toInt32_small; lia. }
  assert (is_Some (cursors st1 !! PresenceMessage.clientId m)) as Hcur.
  { unfold st1, onPresenceUpdate. rewrite Hen, Hps, scheduleReplay_cursors.
    apply ensureCursor_tracked. }
  destruct (runTimers_replay doc (PresenceMessage.clientId m) (clock st) t hi ps
              0 st1 (length (timers st1))) as [Hdone Hpl]; try done.
  { rewrite Htm1. by rewrite length_map. }
  unfold advanceTo. split; [done|].
  rewrite Hlast in Hpl. exact Hpl.
Qed.

Lemma replay_ends_at_the_last_sample_witness :
  let st := run Examples.blankPage "#FF0000" [Examples.toggle; AdvanceTo 2000] (initial 0) in
  timers (advanceTo Examples.blankPage 2050 (onPresenceUpdate Examples.batchA st)) = []
  ∧ placed (advanceTo Examples.blankPage 2050 (onPresenceUpdate Examples.batchA st)) "A"
    = Some (Some (px 20), Some (px 15)).
Proof.
  apply (replay_ends_at_the_last_sample Examples.blankPage Examples.batchA
           [Examples.s0; Examples.s50] Examples.s50 50 2050).
  - reflexivity.
  - reflexivity.
  - reflexivity.
  - reflexivity.
  - reflexivity.
  - repeat constructor.
  - simpl. lia.
  - reflexivity.
  - simpl. lia.
Defined.

(** ** From capture to replay *)

(** X11.  A sample captured over an element and replayed on a page where
    its selector matches exactly one element puts the cursor where the
    pointer was, displaced by the displacement of the element's rectangle
    between the two pages; on a page that lays the element out at the same
    place, exactly at the pointer's page coordinates. *)
Theorem capture_then_replay_follows_the_element
    sender receiver e st element rect element' rect' cid rst p :
  cursorCommunicationEnabled st = true →
  Document.elementFromPoint sender (MouseEvent.clientX e) (MouseEvent.clientY e)
  = Some element →
  Element.getBoundingClientRect element = Some rect →
  last (positions (settle (onMouseMove sender e st))) = Some p →
  JsString.truthy (Position.element p) = true →
  Document.querySelectorAll receiver (Position.element p)
  = Document.NodeList [element'] →
  Element.getBoundingClientRect element' = Some rect' →
  is_Some (cursors rst !! cid) →
  Position.element p = elementClassAndID element
  ∧ placed (settle (replayUpdate receiver cid p rst)) cid
    = Some (Some (px (MouseEvent.pageX e + (DOMRect.left rect' - DOMRect.left rect))),
            Some (px (MouseEvent.pageY e + (DOMRect.top rect' - DOMRect.top rect)))).
Proof.
  intros Hen Hhit Hrect Hlast Htr Hq Hrect' Hcur.
  unfold onMouseMove in Hlast. rewrite Hen, Hhit, Hrect in Hlast. simpl in Hlast.
  rewrite last_snoc in Hlast. injection Hlast as <-. simpl in *.
  split; [done|].
  unfold replayUpdate. destruct Hcur as [c Hc]. rewrite Hc. simpl.
  rewrite Htr, Hq. simpl. rewrite Hrect'. simpl.
  rewrite placed_moveCursor by eauto.
  do 3 f_equal; f_equal; lia.
Qed.

Lemma capture_then_replay_follows_the_element_witness :
  let st := run Examples.boxPage "#00FF00" [Examples.toggle] (initial 0) in
  let rst := run Examples.boxPage "#FF0000" [Examples.toggle; Update Examples.batchA]
               (initial 0) in
  let p := Position.mk 40 50 35 43 0 ".box" in
  Position.element p = elementClassAndID Examples.box
  ∧ placed (settle (replayUpdate Examples.boxPage "A" p rst)) "A"
    = Some (Some (px (40 + (5 - 5))), Some (px (50 + (7 - 7)))).
Proof.
  apply (capture_then_replay_follows_the_element Examples.boxPage Examples.boxPage
           (Examples.move 40 50)
           (run Examples.boxPage "#00FF00" [Examples.toggle] (initial 0))
           Examples.box (DOMRect.mk 5 7) Examples.box (DOMRect.mk 5 7)).
  - reflexivity.
  - reflexivity.
  - reflexivity.
  - reflexivity.
  - reflexivity.
  - reflexivity.
  - reflexivity.
  - vm_compute. eauto.
Defined.

(** ** The selector of a hovered element *)

#[local] Arguments String.append !_ _ / : simpl nomatch.

Lemma append_nil_r (s : string) : s +:+ EmptyString = s.
Proof. induction s as [|c s IH]; simpl; [done|]. by f_equal. Qed.

Lemma append_assoc' (s1 s2 s3 : string) : (s1 +:+ s2) +:+ s3 = s1 +:+ (s2 +:+ s3).
Proof. induction s1 as [|c s1 IH]; simpl; [done|]. by f_equal. Qed.

Lemma replaceAll_absent pat by_ s :
  occurs pat s = false → JsString.replaceAll pat by_ s = s.
Proof.
  induction s as [|c s IH]; simpl; [done|].
  intros H. apply orb_false_elim in H as [Hc Hs].
  rewrite Hc. by rewrite IH.
Qed.

Lemma replaceAll_append pat by_ s1 s2 :
  JsString.replaceAll pat by_ (s1 +:+ s2)
  = JsString.replaceAll pat by_ s1 +:+ JsString.replaceAll pat by_ s2.
Proof.
  induction s1 as [|c s1 IH]; simpl; [done|].
  destruct (Ascii.eqb c pat); rewrite IH; [|done].
  by rewrite append_assoc'.
Qed.

(** X12.  The stored selector is empty, the sample then carrying page
    coordinates only, exactly when the hovered element's [className] is
    the empty string and it has no id.  An SVG element, whose [className]
    is an object, never gives the empty selector. *)
Theorem selector_is_empty_without_class_and_id element :
  elementClassAndID element = EmptyString
  ↔ Element.className element = ClassName.Str EmptyString
    ∧ Element.id element = EmptyString.
Proof.
  unfold elementClassAndID.
  destruct (Element.className element) as [[|a cls]|baseVal];
    destruct (Element.id element) as [|b i]; simpl; split; try done.
  - by intros [_ ?].
  - by intros [? _].
  - by intros [? _].
  - by intros [? _].
  - by intros [? _].
Qed.

(** X13.  What the stored selector is when nothing needs replacing.  For
    an HTML element whose class attribute has no space and no colon it is
    a dot and the class as it is; for an SVG element it is the printed
    [SVGAnimatedString] object with its space replaced, whatever the
    class.  In both cases a space, a hash and the id follow when the
    element has an id. *)
Theorem selector_of_a_plain_class element :
  (∀ cls,
     Element.className element = ClassName.Str cls →
     occurs " " cls = false →
     occurs ":" cls = false →
     elementClassAndID element
     = (if JsString.truthy cls then "." +:+ cls else EmptyString)
       +:+ (if JsString.truthy (Element.id element)
            then " #" +:+ Element.id element else EmptyString))
  ∧ (∀ baseVal,
       Element.className element = ClassName.SVGAnimatedString baseVal →
       elementClassAndID element
       = ".[object.SVGAnimatedString]"
         +:+ (if JsString.truthy (Element.id element)
              then " #" +:+ Element.id element else EmptyString)).
Proof.
  split.
  - intros cls Hcls Hsp Hco. unfold elementClassAndID. rewrite Hcls.
    cbn [ClassName.truthy ClassName.toString].
    set (s := if JsString.truthy cls then "." +:+ cls else EmptyString).
    assert (occurs " " s = false ∧ occurs ":" s = false) as [Hs1 Hs2].
    { unfold s. destruct (JsString.truthy _); simpl; done. }
    rewrite (replaceAll_absent " " "." s Hs1), (replaceAll_absent ":" "\:" s Hs2).
    destruct (JsString.truthy (Element.id element)); cbv iota; [done|].
    by rewrite append_nil_r.
  - intros baseVal Hcls. unfold elementClassAndID. rewrite Hcls.
    by destruct (JsString.truthy (Element.id element)).
Qed.

Lemma selector_of_a_plain_class_witness :
  elementClassAndID (Element.mk (ClassName.Str "btn") "send" None) = ".btn #send".
Proof.
  apply (proj1 (selector_of_a_plain_class (Element.mk (ClassName.Str "btn") "send" None))
           "btn"); reflexivity.
Defined.

(** X14.  For an HTML element without id whose class attribute ends in a
    space, the stored selector ends in a dot: it is the selector of the
    attribute without the space (a lone dot when nothing is left),
    followed by a dot. *)
Theorem selector_of_a_class_ending_in_a_space cls rect :
  elementClassAndID (Element.mk (ClassName.Str (cls +:+ " ")) EmptyString rect)
  = (if JsString.truthy cls
     then elementClassAndID (Element.mk (ClassName.Str cls) EmptyString rect) else ".")
    +:+ ".".
Proof.
  unfold elementClassAndID. simpl.
  destruct cls as [|a cls]; [done|]. simpl JsString.truthy. cbv iota.
  change ("." +:+ (String a cls +:+ " ")) with (String "." (String a cls +:+ " ")).
  change ("." +:+ String a cls) with (String "." (String a cls)).
  change (String "." (String a cls +:+ " ")) with ((String "." (String a cls)) +:+ " ").
  by rewrite !replaceAll_append.
Qed.

(** ** The colour of the local participant *)

Lemma floor16_range r : Random.inRange r → 0 ≤ Random.floor16 r < 16.
Proof.
  unfold Random.inRange, Random.floor16. intros [H0 H1]. split.
  - apply Z.div_pos; lia.
  - apply Z.div_lt_upper_bound; lia.
Qed.

Lemma letterAt_hex k :
  0 ≤ k < 16 → ∃ c, letterAt k = String c EmptyString ∧ isHexDigit c = true.
Proof.
  intros Hk.
  assert (k = 0 ∨ k = 1 ∨ k = 2 ∨ k = 3 ∨ k = 4 ∨ k = 5 ∨ k = 6 ∨ k = 7 ∨ k = 8
          ∨ k = 9 ∨ k = 10 ∨ k = 11 ∨ k = 12 ∨ k = 13 ∨ k = 14 ∨ k = 15) as Hcases by lia.
  repeat (destruct Hcases as [->|Hcases]; [eexists; split; reflexivity|]).
  subst. eexists; split; reflexivity.
Qed.

Lemma colorLoop_digits random n :
  ∀ i color,
    (∀ j, (i ≤ j < i + n)%nat → Random.inRange (random j)) →
    ∃ digits,
      colorLoop n i random color = color +:+ digits
      ∧ String.length digits = n
      ∧ allHex digits = true.
Proof.
  induction n as [|n IH]; intros i color Hr.
  - exists EmptyString. simpl. by rewrite append_nil_r.
  - simpl.
    destruct (letterAt_hex (Random.floor16 (random i))) as (c & Hc & Hhex).
    { apply floor16_range, Hr. lia. }
    destruct (IH (S i) (color +:+ letterAt (Random.floor16 (random i)))) as (ds & Hds & Hlen & Hall).
    { intros j Hj. apply Hr. lia. }
    exists (String c ds). rewrite Hds, Hc, append_assoc'. simpl.
    by rewrite Hlen, Hhex, Hall.
Qed.

(** X15.  Whatever values [Math.random()] returns in [0, 1), the colour
    drawn at load time is a hash sign followed by exactly six hexadecimal
    digits. *)
Theorem getRandomColor_is_a_hex_colour random :
  (∀ i, (i < 6)%nat → Random.inRange (random i)) →
  ∃ digits,
    getRandomColor random = String "#" digits
    ∧ String.length digits = 6%nat
    ∧ allHex digits = true.
Proof.
  intros Hr. unfold getRandomColor.
  destruct (colorLoop_digits random 6 0 "#") as (ds & Hds & Hlen & Hall).
  { intros j Hj. apply Hr. lia. }
  exists ds. by rewrite Hds.
Qed.

Lemma getRandomColor_is_a_hex_colour_witness :
  ∃ digits,
    getRandomColor (λ i, Random.mk (Z.of_nat (2 * i + 1)) 16) = String "#" digits
    ∧ String.length digits = 6%nat
    ∧ allHex digits = true.
Proof.
  apply getRandomColor_is_a_hex_colour.
  intros i Hi. unfold Random.inRange. cbn [Random.num Random.den]. lia.
Defined.

(** ** The stored preference *)

Lemma urlKey_inj url url' : Background.urlKey url = Background.urlKey url' → url = url'.
Proof. unfold Background.urlKey. simpl. by intros [= ->]. Qed.

(** X16.  A [setCursorCommunication] request flips what a later
    [getCursorCommunication] for the same page reports, a page never
    stored reading as disabled; a read that fails reports disabled. *)
Theorem stored_preference_flips url storage :
  Background.getCursorCommunication false url
    (Background.setCursorCommunication url storage)
  = negb (Background.getCursorCommunication false url storage)
  ∧ Background.getCursorCommunication false url ∅ = false
  ∧ Background.getCursorCommunication true url storage = false.
Proof.
  unfold Background.getCursorCommunication, Background.setCursorCommunication,
    Background.writeBack. rewrite lookup_insert_eq, lookup_empty.
  by destruct (storage !! Background.urlKey url) as [[]|].
Qed.

(** X17.  The preference is stored per page: a [setCursorCommunication]
    for one URL does not change what is reported for another. *)
Theorem stored_preference_is_per_page lastError url url' storage :
  url ≠ url' →
  Background.getCursorCommunication lastError url'
    (Background.setCursorCommunication url storage)
  = Background.getCursorCommunication lastError url' storage.
Proof.
  intros Hne. unfold Background.getCursorCommunication,
    Background.setCursorCommunication, Background.writeBack.
  rewrite lookup_insert_ne; [done|]. intros Heq. by apply Hne, urlKey_inj.
Qed.

Lemma stored_preference_is_per_page_witness :
  Background.getCursorCommunication false "https://b.example/"
    (Background.setCursorCommunication "https://a.example/" ∅)
  = Background.getCursorCommunication false "https://b.example/" ∅.
Proof.
  apply stored_preference_is_per_page. discriminate.
Defined.

(** X18.  Two [setCursorCommunication] requests for the same page whose
    reads are both answered before either write flip the preference once,
    not twice: the second write stores what the first stored. *)
Theorem overlapping_toggles_flip_once url storage :
  let result := storage !! Background.urlKey url in
  Background.writeBack url result (Background.writeBack url result storage)
  = Background.setCursorCommunication url storage
  ∧ Background.getCursorCommunication false url
      (Background.writeBack url result (Background.writeBack url result storage))
    = negb (Background.getCursorCommunication false url storage).
Proof.
  intros result. unfold Background.setCursorCommunication, Background.writeBack.
  rewrite insert_insert_eq. split; [done|].
  unfold Background.getCursorCommunication. rewrite lookup_insert_eq.
  unfold result. by destruct (storage !! Background.urlKey url) as [[]|].
Qed.
